(** * seller.py: reconciliation of a vendor stock feed with a marketplace catalog

    A shallow embedding of [seller.py] and the properties of its pure
    transformation functions ([price_conversion], [divide], [create_stocks],
    [create_prices]), of the paging loop of [get_offer_ids], and of the way
    [main] shares the offer-id list between stock and price building.

    Conventions of the embedding.
    - A Python [str] is a [string] holding its UTF-8 bytes.  Equality of
      strings, splitting at the period and the character class [0-9] behave on
      UTF-8 bytes exactly as on code points, because every byte of a
      multi-byte character is above 127.
    - A Python exception is a value of [exn]; a computation that may raise
      returns [exn + A].
    - The list object [offer_ids] is mutated in place by the source, so lists
      of offer ids live in a store and are passed by reference. *)

From Stdlib Require Import ZArith Ascii String.
From stdpp Require Import base option list gmap strings pretty.

Local Open Scope string_scope.
Local Open Scope list_scope.
Local Open Scope Z_scope.

(** ** Python values and exceptions *)

Inductive exn : Set :=
  | ValueError
  | TypeError
  | AttributeError
  | IndexError.

(** Cells of the spreadsheet records and fields of JSON objects.  [PyObj]
    stands for any other object (a float, a bool, a timestamp): this program
    observes such a cell only through [str()] and [int()], so the object is
    given by the results of the two. *)
Inductive pyval : Type :=
  | PyNone
  | PyInt (z : Z)
  | PyStr (s : string)
  | PyObj (repr : string) (as_int : exn + Z).

(** [str(v)] *)
Definition py_str (v : pyval) : string :=
  match v with
  | PyNone => "None"
  | PyInt z => pretty z
  | PyStr s => s
  | PyObj repr _ => repr
  end.

(** A spreadsheet record: a dict from column label to cell. *)
Abbreviation row := (gmap string pyval).

(** [d.get(key)]: the value, or [None] when the key is missing. *)
Definition dict_get (d : row) (key : string) : pyval :=
  default PyNone (d !! key).

(** ** Characters *)

Definition is_digit (c : ascii) : bool :=
  let n := nat_of_ascii c in ((48 <=? n) && (n <=? 57))%nat.

(** The whitespace that [int()] skips around an ASCII literal:
    tab, line feed, vertical tab, form feed, carriage return and space. *)
Definition is_space (c : ascii) : bool :=
  let n := nat_of_ascii c in (((9 <=? n) && (n <=? 13)) || (n =? 32))%nat.

Definition digit_value (c : ascii) : Z := Z.of_nat (nat_of_ascii c) - 48.

(** ** price_conversion (lines 265-283) *)

(** [s.split(sep)] for a separator of one character. *)
Fixpoint str_split (sep : ascii) (s : string) : list string :=
  match s with
  | EmptyString => [EmptyString]
  | String c s' =>
      if Ascii.eqb c sep then EmptyString :: str_split sep s'
      else match str_split sep s' with
           | piece :: pieces => String c piece :: pieces
           | [] => [String c EmptyString]
           end
  end.

(** [lst[0]] *)
Definition index0 {A} (lst : list A) : exn + A :=
  match lst with
  | x :: _ => inr x
  | [] => inl IndexError
  end.

(** [re.sub("[^0-9]", "", s)]: every character outside [0-9] is deleted. *)
Fixpoint re_sub_non_digits (s : string) : string :=
  match s with
  | EmptyString => EmptyString
  | String c s' =>
      if is_digit c then String c (re_sub_non_digits s')
      else re_sub_non_digits s'
  end.

(** [price_conversion(price)].  The annotation [price: str] is not enforced:
    a cell that is not a string has no [split] method. *)
Definition price_conversion (price : pyval) : exn + string :=
  match price with
  | PyStr s =>
      match index0 (str_split "." s) with
      | inr integer_part => inr (re_sub_non_digits integer_part)
      | inl e => inl e
      end
  | _ => inl AttributeError
  end.

(** ** int() (used on line 230) *)

(** Leading whitespace of a literal. *)
Fixpoint skip_spaces (cs : list ascii) : list ascii :=
  match cs with
  | c :: cs' => if is_space c then skip_spaces cs' else cs
  | [] => []
  end.

(** The digits of a decimal literal after its first digit, whose value so far
    is [acc]: digits, single underscores between digits, then only
    whitespace. *)
Fixpoint int_digits (acc : Z) (cs : list ascii) : option Z :=
  match cs with
  | [] => Some acc
  | c :: cs' =>
      if is_digit c then int_digits (10 * acc + digit_value c) cs'
      else if Ascii.eqb c "_" then
        match cs' with
        | d :: cs'' =>
            if is_digit d then int_digits (10 * acc + digit_value d) cs''
            else None
        | [] => None
        end
      else if is_space c then
        if forallb is_space cs' then Some acc else None
      else None
  end.

Definition int_unsigned (cs : list ascii) : option Z :=
  match cs with
  | d :: cs' => if is_digit d then int_digits (digit_value d) cs' else None
  | [] => None
  end.

(** [int(s)] for a string, base 10, as CPython reads an ASCII literal:
    optional whitespace, an optional sign, digits.  CPython also reads the
    decimal digits and spaces of other scripts, and recent versions refuse
    literals of several thousand digits; such literals are outside this
    model. *)
Definition py_int_str (s : string) : exn + Z :=
  let cs := skip_spaces (list_ascii_of_string s) in
  let signed :=
    match cs with
    | c :: cs' =>
        if Ascii.eqb c "-" then Z.opp <$> int_unsigned cs'
        else if Ascii.eqb c "+" then int_unsigned cs'
        else int_unsigned cs
    | [] => None
    end in
  match signed with
  | Some z => inr z
  | None => inl ValueError
  end.

(** [int(v)] *)
Definition py_int (v : pyval) : exn + Z :=
  match v with
  | PyNone => inl TypeError
  | PyInt z => inr z
  | PyStr s => py_int_str s
  | PyObj _ as_int => as_int
  end.

(** ** The store of list objects *)

(** A list object of offer ids is named by its location; its items are the
    [offer_id] strings of the product listing.  The lists [stocks] and
    [prices] are local to the function that builds and returns them and are
    kept as values. *)
Abbreviation loc := positive.
Abbreviation store := (gmap loc (list string)).

(** Computations over the store that may raise. *)
Definition M (A : Type) : Type := store → exn + (A * store).

#[global] Instance M_ret : MRet M := λ A x σ, inr (x, σ).
#[global] Instance M_bind : MBind M := λ A B f m σ,
  match m σ with
  | inl e => inl e
  | inr (x, σ') => f x σ'
  end.

Definition raise {A} (e : exn) : M A := λ _, inl e.

Definition lift {A} (r : exn + A) : M A :=
  match r with
  | inl e => raise e
  | inr x => mret x
  end.

(** A new list object. *)
Definition new_list (items : list string) : M loc := λ σ,
  let l := fresh (dom σ) in inr (l, <[l := items]> σ).

(** [x in lst] *)
Definition list_contains (lst : loc) (x : string) : M bool := λ σ,
  inr (bool_decide (x ∈ σ !!! lst), σ).

(** The list without the first item equal to [x], if there is one. *)
Fixpoint remove_first (x : string) (items : list string) : option (list string) :=
  match items with
  | [] => None
  | y :: items' =>
      if decide (x = y) then Some items'
      else (y ::.) <$> remove_first x items'
  end.

(** [lst.remove(x)]: in place; [ValueError] when [x] is not in the list. *)
Definition list_remove (lst : loc) (x : string) : M unit := λ σ,
  match remove_first x (σ !!! lst) with
  | Some items => inr ((), <[lst := items]> σ)
  | None => inl ValueError
  end.

(** The items a [for] loop over [lst] visits when its body leaves [lst]
    alone. *)
Definition list_items (lst : loc) : M (list string) := λ σ,
  inr (σ !!! lst, σ).

(** [for x in xs: acc = body(acc, x)] *)
Fixpoint for_each {A S} (xs : list A) (acc : S) (body : S → A → M S) : M S :=
  match xs with
  | [] => mret acc
  | x :: xs' => acc' ← body acc x; for_each xs' acc' body
  end.

(** ** Records sent to the marketplace *)

Module Stock.
Record t : Type := mk { offer_id : string; stock : Z }.
End Stock.

Module Price.
Record t : Type := mk {
  auto_action_enabled : string;
  currency_code : string;
  offer_id : string;
  old_price : string;
  price : string
}.
End Price.

(** ** create_stocks (lines 207-235) *)

(** The body of the loop over the vendor rows (lines 223-232). *)
Definition create_stocks_row (offer_ids : loc)
    (stocks : list Stock.t) (watch : row) : M (list Stock.t) :=
  found ← list_contains offer_ids (py_str (dict_get watch "Код"));
  if (found : bool) then
    let count := py_str (dict_get watch "Количество") in
    stock ← (if String.eqb count ">10" then mret 100
             else if String.eqb count "1" then mret 0
             else lift (py_int (dict_get watch "Количество")));
    let stocks :=
      stocks ++ [Stock.mk (py_str (dict_get watch "Код")) stock] in
    _ ← list_remove offer_ids (py_str (dict_get watch "Код"));
    mret stocks
  else mret stocks.

Definition create_stocks (watch_remnants : list row) (offer_ids : loc)
    : M (list Stock.t) :=
  stocks ← for_each watch_remnants [] (create_stocks_row offer_ids);
  remaining ← list_items offer_ids;
  for_each remaining stocks
    (λ stocks offer_id, mret (stocks ++ [Stock.mk offer_id 0])).

(** ** create_prices (lines 238-262) *)

Definition create_prices_row (offer_ids : loc)
    (prices : list Price.t) (watch : row) : M (list Price.t) :=
  found ← list_contains offer_ids (py_str (dict_get watch "Код"));
  if (found : bool) then
    converted ← lift (price_conversion (dict_get watch "Цена"));
    let price :=
      {| Price.auto_action_enabled := "UNKNOWN";
         Price.currency_code := "RUB";
         Price.offer_id := py_str (dict_get watch "Код");
         Price.old_price := "0";
         Price.price := converted |} in
    mret (prices ++ [price])
  else mret prices.

Definition create_prices (watch_remnants : list row) (offer_ids : loc)
    : M (list Price.t) :=
  for_each watch_remnants [] (create_prices_row offer_ids).

(** ** divide (lines 286-300) *)

(** [len(range(start, stop, step))] for a step other than zero. *)
Definition range_length (start stop step : Z) : nat :=
  if 0 <? step then
    if start <? stop then Z.to_nat ((stop - start - 1) / step + 1) else 0%nat
  else
    if stop <? start then Z.to_nat ((start - stop - 1) / (- step) + 1) else 0%nat.

(** [range(start, stop, step)]: a zero step is a [ValueError]. *)
Definition py_range (start stop step : Z) : exn + list Z :=
  if step =? 0 then inl ValueError
  else inr ((λ k : nat, start + Z.of_nat k * step)
              <$> seq 0 (range_length start stop step)).

(** A slice bound brought into [0 .. len]: a negative bound counts from the
    end. *)
Definition slice_bound (len i : Z) : Z :=
  if i <? 0 then Z.max 0 (i + len) else Z.min i len.

(** [lst[i:j]] *)
Definition py_slice {A} (lst : list A) (i j : Z) : list A :=
  let len := Z.of_nat (length lst) in
  let lo := slice_bound len i in
  let hi := slice_bound len j in
  take (Z.to_nat (hi - lo)) (drop (Z.to_nat lo) lst).

(** [list(divide(lst, n))]: the batches the generator yields when it is
    consumed, which every caller does at once; the error of [range] is
    raised when the generator is first advanced. *)
Definition divide {A} (lst : list A) (n : Z) : exn + list (list A) :=
  match py_range 0 (Z.of_nat (length lst)) n with
  | inl e => inl e
  | inr starts => inr ((λ i, py_slice lst i (i + n)) <$> starts)
  end.

(** ** main (lines 348-366) *)

(** The calls of [update_stocks] and [update_price]. *)
Inductive request : Type :=
  | UpdateStocks (stocks : list Stock.t)
  | UpdatePrice (prices : list Price.t).

(** The [try] block of [main], given the list that [get_offer_ids] returned
    and the records that [download_stock] returned, with every request
    answered without an HTTP error: the requests of a run that completes.
    An exception ends the run (lines 361-366 print it). *)
Definition main_try (fetched_offer_ids : list string)
    (watch_remnants : list row) : M (list request) :=
  offer_ids ← new_list fetched_offer_ids;
  stocks ← create_stocks watch_remnants offer_ids;
  stock_batches ← lift (divide stocks 100);
  prices ← create_prices watch_remnants offer_ids;
  price_batches ← lift (divide prices 900);
  mret ((UpdateStocks <$> stock_batches) ++ (UpdatePrice <$> price_batches)).

Definition main (fetched_offer_ids : list string)
    (watch_remnants : list row) : exn + list request :=
  match main_try fetched_offer_ids watch_remnants ∅ with
  | inl e => inl e
  | inr (requests, _) => inr requests
  end.

(** ** get_offer_ids (lines 53-77) *)

Module Product.
Record t : Type := mk { product_id : Z; offer_id : string }.
End Product.

(** The [result] object of a product-list response. *)
Module Page.
Record t : Type := mk {
  items : list Product.t;
  total : Z;
  last_id : string
}.
End Page.

Section get_offer_ids.
(** The marketplace: the answer to the request number [k] (counted from
    zero) made with the cursor [last_id]. *)
Variable get_product_list : nat → string → Page.t.

(** The [while True] loop of lines 67-73 about to make request number
    [request_no]; [None] when [fuel] iterations did not reach [break]. *)
Fixpoint get_offer_ids_loop (fuel request_no : nat) (last_id : string)
    (product_list : list Product.t) : option (list Product.t) :=
  match fuel with
  | O => None
  | S fuel' =>
      let some_prod := get_product_list request_no last_id in
      let product_list := product_list ++ Page.items some_prod in
      let total := Page.total some_prod in
      let last_id := Page.last_id some_prod in
      if total =? Z.of_nat (length product_list) then Some product_list
      else get_offer_ids_loop fuel' (S request_no) last_id product_list
  end.

Definition get_offer_ids (fuel : nat) : option (list string) :=
  match get_offer_ids_loop fuel 0 "" [] with
  | Some product_list => Some (Product.offer_id <$> product_list)
  | None => None
  end.

(** The cursor sent with request number [k]. *)
Fixpoint cursor (k : nat) : string :=
  match k with
  | O => ""
  | S k' => Page.last_id (get_product_list k' (cursor k'))
  end.

(** The sequence of responses the loop receives. *)
Definition response (k : nat) : Page.t := get_product_list k (cursor k).

(** The products of the first [n] responses, in page order. *)
Definition accumulated (n : nat) : list Product.t :=
  concat ((λ k, Page.items (response k)) <$> seq 0 n).

(** The reported total of response [k] equals the number of products
    accumulated with it. *)
Definition total_reached (k : nat) : Prop :=
  Page.total (response k) = Z.of_nat (length (accumulated (S k))).

(** The loop about to make request number [k], in the state the earlier
    iterations left. *)
Definition loop_from (fuel k : nat) : option (list Product.t) :=
  get_offer_ids_loop fuel k (cursor k) (accumulated k).
End get_offer_ids.

(** ** upload_prices and upload_stocks (lines 303-345) *)

(** The body of the coroutine [upload_prices], given the list that its own
    call of [get_offer_ids] returned, with every request answered without an
    HTTP error: the requests made and the value returned. *)
Definition upload_prices (fetched_offer_ids : list string)
    (watch_remnants : list row) : M (list request * list Price.t) :=
  offer_ids ← new_list fetched_offer_ids;
  prices ← create_prices watch_remnants offer_ids;
  price_batches ← lift (divide prices 1000);
  mret (UpdatePrice <$> price_batches, prices).

(** The body of the coroutine [upload_stocks], in the same way; it returns
    the pair [(not_empty, stocks)]. *)
Definition upload_stocks (fetched_offer_ids : list string)
    (watch_remnants : list row)
    : M (list request * (list Stock.t * list Stock.t)) :=
  offer_ids ← new_list fetched_offer_ids;
  stocks ← create_stocks watch_remnants offer_ids;
  stock_batches ← lift (divide stocks 100);
  let not_empty := filter (λ stock, Stock.stock stock ≠ 0) stocks in
  mret (UpdateStocks <$> stock_batches, (not_empty, stocks)).

(** ** Vocabulary of the statements and sample inputs *)

(** The vendor code of a row, as the source writes it at each use. *)
Abbreviation row_code watch := (py_str (dict_get watch "Код")).
Abbreviation row_quantity watch := (dict_get watch "Количество").
Abbreviation row_price watch := (dict_get watch "Цена").

(** A row of [create_stocks] returns when its quantity is a sentinel or a
    value that [int()] accepts. *)
Definition quantity_readable (watch : row) : Prop :=
  py_str (row_quantity watch) = ">10"
  ∨ py_str (row_quantity watch) = "1"
  ∨ ∃ stock, py_int (row_quantity watch) = inr stock.

(** The end-to-end scenario of the specification. *)
Definition scenario_ids : list string := ["A"; "B"; "C"].

Definition scenario_rows : list row :=
  [ {[ "Код" := PyStr "A"; "Количество" := PyStr ">10";
       "Цена" := PyStr "999.00" ]};
    {[ "Код" := PyStr "B"; "Количество" := PyStr "1";
       "Цена" := PyStr "5'000.00" ]} ].

(** A store whose only list object holds [ids]. *)
Definition store_of (ids : list string) : store := {[ 1%positive := ids ]}.

(** A row with an ordinary quantity. *)
Definition seven_row : row :=
  {[ "Код" := PyStr "A"; "Количество" := PyStr "7";
     "Цена" := PyStr "120.50" ]}.

(** The record that [create_prices] builds for a vendor row. *)
Definition price_record_of (watch : row) (record : Price.t) : Prop :=
  price_conversion (row_price watch) = inr (Price.price record)
  ∧ Price.offer_id record = row_code watch
  ∧ Price.auto_action_enabled record = "UNKNOWN"
  ∧ Price.currency_code record = "RUB"
  ∧ Price.old_price record = "0".

(** A feed that repeats the code ["A"] and has a code unknown to the
    marketplace. *)
Definition repeated_rows : list row :=
  [ seven_row;
    {[ "Код" := PyStr "Z"; "Количество" := PyStr "3";
       "Цена" := PyStr "15.00" ]};
    {[ "Код" := PyStr "A"; "Количество" := PyStr ">10";
       "Цена" := PyStr "1 300.99" ]} ].

(** The characters of a text. *)
Abbreviation chars s := (list_ascii_of_string s).

(** The decimal digits of a text, in order. *)
Definition digits_of (s : string) : string :=
  string_of_list_ascii (List.filter is_digit (chars s)).

(** A marketplace with three products on two pages. *)
Definition two_pages (request_no : nat) (last_id : string) : Page.t :=
  if String.eqb last_id "" then
    Page.mk [Product.mk 11 "A"; Product.mk 12 "B"] 3 "next"
  else Page.mk [Product.mk 13 "C"] 3 "".

(** A marketplace that reports one product more than it lists: the loop
    never ends. *)
Definition short_listing (request_no : nat) (last_id : string) : Page.t :=
  Page.mk [] 1 "".

(** What a computation raises or returns, without the store. *)
Definition outcome {A} (r : exn + (A * store)) : exn + A :=
  match r with
  | inl e => inl e
  | inr (x, _) => inr x
  end.

(** The vendor codes of a feed, in feed order. *)
Definition row_codes (watch_remnants : list row) : list string :=
  (λ watch, row_code watch) <$> watch_remnants.

(** A row without a price and with a quantity that [int()] rejects. *)
Definition broken_row : row :=
  {[ "Код" := PyStr "B"; "Количество" := PyStr "n/a" ]}.

(** A row whose cells are numbers, as a spreadsheet reader yields them. *)
Definition numeric_row : row :=
  {[ "Код" := PyInt 70415; "Количество" := PyInt 4; "Цена" := PyStr "8 990.00" ]}.

(** A marketplace whose listing grows while it is paged: it reports two
    products and then delivers three. *)
Definition growing_listing (request_no : nat) (last_id : string) : Page.t :=
  if String.eqb last_id "" then Page.mk [Product.mk 11 "A"] 2 "next"
  else Page.mk [Product.mk 12 "B"; Product.mk 13 "C"] 2 "next".

(** The stock that lines 224-230 give to a row. *)
Definition stock_policy (watch : row) (stock : Z) : Prop :=
  (py_str (row_quantity watch) = ">10" → stock = 100)
  ∧ (py_str (row_quantity watch) = "1" → stock = 0)
  ∧ (py_str (row_quantity watch) ≠ ">10" →
     py_str (row_quantity watch) ≠ "1" →
     py_int (row_quantity watch) = inr stock).

(** * Properties *)

(** ** Running the store monad *)

Lemma bind_inr {A B} (m : M A) (f : A → M B) σ x σ' :
  m σ = inr (x, σ') → (m ≫= f) σ = f x σ'.
Proof. intros Hm. unfold mbind, M_bind. by rewrite Hm. Qed.

Lemma bind_inl {A B} (m : M A) (f : A → M B) σ e :
  m σ = inl e → (m ≫= f) σ = inl e.
Proof. intros Hm. unfold mbind, M_bind. by rewrite Hm. Qed.

Lemma bind_inv {A B} (m : M A) (f : A → M B) σ y σ' :
  (m ≫= f) σ = inr (y, σ') →
  ∃ x σ1, m σ = inr (x, σ1) ∧ f x σ1 = inr (y, σ').
Proof.
  unfold mbind, M_bind. destruct (m σ) as [e|[x σ1]]; [done|]. eauto.
Qed.

Lemma for_each_app {A S} (xs ys : list A) (acc : S) (body : S → A → M S) σ :
  for_each (xs ++ ys) acc body σ
  = (for_each xs acc body ≫= λ acc', for_each ys acc' body) σ.
Proof.
  revert acc σ. induction xs as [|x xs IH]; intros acc σ; simpl.
  - done.
  - unfold mbind, M_bind in *. destruct (body acc x σ) as [e|[acc1 σ1]]; [done|].
    apply IH.
Qed.

(** ** list.remove *)

Lemma remove_first_perm x items items' :
  remove_first x items = Some items' → items ≡ₚ x :: items'.
Proof.
  revert items'. induction items as [|y items IH]; intros items' H; simpl in H.
  - done.
  - case_decide as Hxy.
    + by simplify_eq.
    + destruct (remove_first x items) as [rest|] eqn:Hrest; simplify_eq/=.
      rewrite (IH rest eq_refl). apply Permutation_swap.
Qed.

Lemma remove_first_is_Some x items :
  x ∈ items → is_Some (remove_first x items).
Proof.
  induction items as [|y items IH]; intros Hin; simpl.
  - by apply elem_of_nil in Hin.
  - case_decide as Hxy; [by eexists|].
    apply elem_of_cons in Hin as [?|Hin]; [done|].
    destruct (IH Hin) as [rest ->]. by eexists.
Qed.

Lemma remove_first_keeps x y items items' :
  remove_first x items = Some items' → y ≠ x → y ∈ items → y ∈ items'.
Proof.
  intros Hrem Hne Hin. apply remove_first_perm in Hrem.
  rewrite Hrem in Hin. apply elem_of_cons in Hin as [?|?]; done.
Qed.

(** ** One vendor row of create_stocks *)

Lemma create_stocks_row_skip offer_ids stocks watch σ known :
  σ !! offer_ids = Some known →
  row_code watch ∉ known →
  create_stocks_row offer_ids stocks watch σ = inr (stocks, σ).
Proof.
  intros Hσ Hnot. unfold create_stocks_row, mbind, M_bind, list_contains.
  rewrite (lookup_total_correct _ _ _ Hσ).
  by rewrite bool_decide_eq_false_2.
Qed.

Lemma create_stocks_row_match offer_ids stocks watch σ known stocks' σ' :
  σ !! offer_ids = Some known →
  row_code watch ∈ known →
  create_stocks_row offer_ids stocks watch σ = inr (stocks', σ') →
  ∃ stock known',
    stocks' = stocks ++ [Stock.mk (row_code watch) stock]
    ∧ σ' = <[offer_ids := known']> σ
    ∧ remove_first (row_code watch) known = Some known'
    ∧ (py_str (row_quantity watch) = ">10" → stock = 100)
    ∧ (py_str (row_quantity watch) = "1" → stock = 0)
    ∧ (py_str (row_quantity watch) ≠ ">10" →
       py_str (row_quantity watch) ≠ "1" →
       py_int (row_quantity watch) = inr stock).
Proof.
  intros Hσ Hin. unfold create_stocks_row, mbind, M_bind, list_contains, list_remove.
  rewrite (lookup_total_correct _ _ _ Hσ).
  rewrite bool_decide_eq_true_2 by done.
  destruct (remove_first_is_Some _ _ Hin) as [known' Hrem].
  destruct (String.eqb_spec (py_str (row_quantity watch)) ">10") as [Hgt|Hgt].
  - unfold mret, M_ret. rewrite (lookup_total_correct _ _ _ Hσ), Hrem.
    intros [= <- <-]. exists 100, known'. rewrite Hgt. by repeat split.
  - destruct (String.eqb_spec (py_str (row_quantity watch)) "1") as [Hone|Hone].
    + unfold mret, M_ret. rewrite (lookup_total_correct _ _ _ Hσ), Hrem.
      intros [= <- <-]. exists 0, known'. rewrite Hone. by repeat split.
    + destruct (py_int (row_quantity watch)) as [e|stock]; simpl; [done|].
      unfold mret, M_ret. rewrite (lookup_total_correct _ _ _ Hσ), Hrem.
      intros [= <- <-]. exists stock, known'. by repeat split.
Qed.

(** ** The two loops of create_stocks *)

(** The loop over the vendor rows moves offer ids, one occurrence at a time,
    from the list object to the records: [matched] are the records it
    appends and [known'] is what it leaves in the list object. *)
Lemma create_stocks_rows_inv watch_remnants offer_ids :
  ∀ stocks σ known stocks' σ',
    σ !! offer_ids = Some known →
    for_each watch_remnants stocks (create_stocks_row offer_ids) σ
      = inr (stocks', σ') →
    ∃ matched known',
      stocks' = stocks ++ matched
      ∧ σ' = <[offer_ids := known']> σ
      ∧ (Stock.offer_id <$> matched) ++ known' ≡ₚ known
      ∧ (∀ k, k ∈ known →
           Forall (λ watch, row_code watch ≠ k) watch_remnants → k ∈ known')
      ∧ (NoDup known →
           Forall (λ watch, row_code watch ∉ known') watch_remnants)
      ∧ Forall (λ record, ∃ watch,
           watch ∈ watch_remnants ∧ Stock.offer_id record = row_code watch)
          matched.
Proof.
  induction watch_remnants as [|watch rows IH];
    intros stocks σ known stocks' σ' Hσ Hrun.
  - simpl in Hrun. injection Hrun as <- <-.
    exists [], known. rewrite app_nil_r, insert_id by done.
    repeat split; auto.
  - simpl in Hrun. apply bind_inv in Hrun as (stocks1 & σ1 & Hrow & Hrest).
    destruct (decide (row_code watch ∈ known)) as [Hin|Hnot].
    + destruct (create_stocks_row_match _ _ _ _ _ _ _ Hσ Hin Hrow)
        as (stock & known1 & -> & -> & Hrem & _).
      apply remove_first_perm in Hrem as Hperm1.
      destruct (IH _ _ known1 _ _ (lookup_insert_eq _ _ _) Hrest)
        as (matched & known' & -> & -> & Hperm & Hkeep & Hgone & Hfrom).
      exists (Stock.mk (row_code watch) stock :: matched), known'.
      rewrite insert_insert_eq, <- app_assoc.
      split; [done|]. split; [done|]. split; [|split; [|split]].
      * simpl. by rewrite Hperm, Hperm1.
      * intros k Hk Hall. apply Forall_cons in Hall as [Hne Hall].
        apply Hkeep; [|done]. by eapply remove_first_keeps.
      * intros Hnodup. rewrite Hperm1 in Hnodup.
        apply NoDup_cons in Hnodup as [Hfresh Hnodup].
        apply Forall_cons. split; [|by apply Hgone].
        intros Hin'. apply Hfresh. rewrite <- Hperm.
        apply elem_of_app. by right.
      * apply Forall_cons. split.
        -- exists watch. split; [apply list_elem_of_here|done].
        -- eapply Forall_impl; [exact Hfrom|].
           intros record (w & Hw & Heq). exists w.
           split; [by apply list_elem_of_further|done].
    + rewrite (create_stocks_row_skip _ _ _ _ _ Hσ Hnot) in Hrow.
      injection Hrow as <- <-.
      destruct (IH _ _ known _ _ Hσ Hrest)
        as (matched & known' & -> & -> & Hperm & Hkeep & Hgone & Hfrom).
      exists matched, known'.
      split; [done|]. split; [done|]. split; [done|]. split; [|split].
      * intros k Hk Hall. apply Forall_cons in Hall as [_ Hall]. by apply Hkeep.
      * intros Hnodup. apply Forall_cons. split; [|by apply Hgone].
        intros Hin'. apply Hnot. rewrite <- Hperm.
        apply elem_of_app. by right.
      * eapply Forall_impl; [exact Hfrom|].
        intros record (w & Hw & Heq). exists w.
        split; [by apply list_elem_of_further|done].
Qed.

(** The loop of lines 233-234 appends a zero record for each remaining id. *)
Lemma zero_out_loop remaining stocks σ :
  for_each remaining stocks
    (λ stocks offer_id, mret (stocks ++ [Stock.mk offer_id 0])) σ
  = inr (stocks ++ ((λ offer_id, Stock.mk offer_id 0) <$> remaining), σ).
Proof.
  revert stocks. induction remaining as [|k remaining IH]; intros stocks; simpl.
  - by rewrite app_nil_r.
  - unfold mbind, M_bind, mret, M_ret at 1. rewrite IH.
    by rewrite <- app_assoc.
Qed.

(** What a returning call of [create_stocks] computes: the records of the
    matched rows, then a zero record for each id left in the list object,
    which it has changed in place to hold exactly those ids. *)
Lemma create_stocks_result watch_remnants offer_ids σ known stocks σ' :
  σ !! offer_ids = Some known →
  create_stocks watch_remnants offer_ids σ = inr (stocks, σ') →
  ∃ matched known',
    for_each watch_remnants [] (create_stocks_row offer_ids) σ
      = inr (matched, σ')
    ∧ stocks = matched ++ ((λ offer_id, Stock.mk offer_id 0) <$> known')
    ∧ σ' = <[offer_ids := known']> σ
    ∧ (Stock.offer_id <$> matched) ++ known' ≡ₚ known
    ∧ (∀ k, k ∈ known →
         Forall (λ watch, row_code watch ≠ k) watch_remnants → k ∈ known')
    ∧ (NoDup known →
         Forall (λ watch, row_code watch ∉ known') watch_remnants)
    ∧ Forall (λ record, ∃ watch,
         watch ∈ watch_remnants ∧ Stock.offer_id record = row_code watch)
        matched.
Proof.
  intros Hσ Hrun. unfold create_stocks in Hrun.
  apply bind_inv in Hrun as (matched0 & σ1 & Hrows & Hrun).
  destruct (create_stocks_rows_inv _ _ _ _ _ _ _ Hσ Hrows)
    as (matched & known' & Hm & -> & Hperm & Hkeep & Hgone & Hfrom).
  simpl in Hm. subst matched0.
  unfold mbind, M_bind, list_items in Hrun.
  rewrite lookup_total_insert_eq, zero_out_loop in Hrun.
  injection Hrun as <- <-.
  exists matched, known'. by repeat split.
Qed.

Lemma offer_id_zero_records (ids : list string) :
  Stock.offer_id <$> ((λ offer_id, Stock.mk offer_id 0) <$> ids) = ids.
Proof. induction ids as [|k ids IH]; [done|]. by rewrite !fmap_cons, IH. Qed.

(** The offer ids of the records are the known ids, rearranged. *)
Lemma create_stocks_offer_ids_perm watch_remnants offer_ids σ known stocks σ' :
  σ !! offer_ids = Some known →
  create_stocks watch_remnants offer_ids σ = inr (stocks, σ') →
  Stock.offer_id <$> stocks ≡ₚ known.
Proof.
  intros Hσ Hrun.
  destruct (create_stocks_result _ _ _ _ _ _ Hσ Hrun)
    as (matched & known' & _ & -> & _ & Hperm & _).
  by rewrite fmap_app, offer_id_zero_records.
Qed.

Lemma create_stocks_row_returns offer_ids stocks watch σ known :
  σ !! offer_ids = Some known →
  quantity_readable watch →
  ∃ stocks' known',
    create_stocks_row offer_ids stocks watch σ
      = inr (stocks', <[offer_ids := known']> σ).
Proof.
  intros Hσ Hq.
  destruct (decide (row_code watch ∈ known)) as [Hin|Hnot].
  - destruct (remove_first_is_Some _ _ Hin) as [known' Hrem].
    unfold create_stocks_row, mbind, M_bind, list_contains, list_remove.
    rewrite (lookup_total_correct _ _ _ Hσ), bool_decide_eq_true_2 by done.
    destruct (String.eqb_spec (py_str (row_quantity watch)) ">10") as [Hgt|Hgt].
    { unfold mret, M_ret. rewrite (lookup_total_correct _ _ _ Hσ), Hrem. eauto. }
    destruct (String.eqb_spec (py_str (row_quantity watch)) "1") as [Hone|Hone].
    { unfold mret, M_ret. rewrite (lookup_total_correct _ _ _ Hσ), Hrem. eauto. }
    destruct Hq as [?|[?|[stock Hint]]]; [done|done|].
    rewrite Hint. simpl. unfold mret, M_ret.
    rewrite (lookup_total_correct _ _ _ Hσ), Hrem. eauto.
  - exists stocks, known.
    rewrite (create_stocks_row_skip _ _ _ _ _ Hσ Hnot).
    by rewrite insert_id.
Qed.

(** [create_stocks] returns on every feed whose quantities are readable. *)
Lemma create_stocks_returns watch_remnants offer_ids σ known :
  σ !! offer_ids = Some known →
  Forall quantity_readable watch_remnants →
  ∃ stocks σ', create_stocks watch_remnants offer_ids σ = inr (stocks, σ').
Proof.
  intros Hσ Hall.
  assert (∀ stocks σ known, σ !! offer_ids = Some known →
            ∃ stocks' σ',
              for_each watch_remnants stocks (create_stocks_row offer_ids) σ
                = inr (stocks', σ')) as Hrows.
  { clear σ known Hσ.
    induction Hall as [|watch rows Hq Hall IH]; intros stocks σ known Hσ.
    - simpl. by eexists _, _.
    - destruct (create_stocks_row_returns _ stocks _ _ _ Hσ Hq)
        as (stocks1 & known1 & Hrow).
      destruct (IH stocks1 _ known1 (lookup_insert_eq σ offer_ids known1))
        as (stocks' & σ' & Hrest).
      exists stocks', σ'. simpl. by rewrite (bind_inr _ _ _ _ _ Hrow). }
  destruct (Hrows [] σ known Hσ) as (matched & σ1 & Hrun).
  unfold create_stocks. rewrite (bind_inr _ _ _ _ _ Hrun).
  unfold mbind, M_bind, list_items. rewrite zero_out_loop. by eexists _, _.
Qed.

(** ** Claims about create_stocks *)

(** C2. For a duplicate-free list of known offer ids, the records returned by
    [create_stocks] are as many as the known ids, every record's offer id is
    a known id, no offer id occurs twice, and every known id occurs. *)
Theorem create_stocks_covers_catalog
    watch_remnants offer_ids σ known stocks σ' :
  σ !! offer_ids = Some known →
  NoDup known →
  create_stocks watch_remnants offer_ids σ = inr (stocks, σ') →
  length stocks = length known
  ∧ (∀ record, record ∈ stocks → Stock.offer_id record ∈ known)
  ∧ NoDup (Stock.offer_id <$> stocks)
  ∧ (∀ k, k ∈ known → k ∈ Stock.offer_id <$> stocks).
Proof.
  intros Hσ Hnodup Hrun.
  pose proof (create_stocks_offer_ids_perm _ _ _ _ _ _ Hσ Hrun) as Hperm.
  split; [|split; [|split]].
  - rewrite <- (length_fmap Stock.offer_id). by apply Permutation_length.
  - intros record Hin. rewrite <- Hperm. by apply list_elem_of_fmap_2.
  - by rewrite Hperm.
  - intros k Hk. by rewrite Hperm.
Qed.

Lemma create_stocks_covers_catalog_witness :
  let stocks := [Stock.mk "A" 100; Stock.mk "B" 0; Stock.mk "C" 0] in
  length stocks = length scenario_ids
  ∧ (∀ record, record ∈ stocks → Stock.offer_id record ∈ scenario_ids)
  ∧ NoDup (Stock.offer_id <$> stocks)
  ∧ (∀ k, k ∈ scenario_ids → k ∈ Stock.offer_id <$> stocks).
Proof.
  apply (create_stocks_covers_catalog scenario_rows 1%positive
           (store_of scenario_ids) scenario_ids _ (store_of ["C"])).
  - reflexivity.
  - apply (bool_decide_unpack _). vm_compute. exact I.
  - vm_compute. reflexivity.
Defined.

(** C4. Quantity-to-stock policy.  A vendor row matches when its code is in
    the offer-id list at the moment the loop reaches the row (line 223).  The
    record appended for a matching row carries the row's code and a stock of
    100 for the quantity [">10"], of 0 for the quantity ["1"], and of
    [int(quantity)] for every other quantity. *)
Theorem create_stocks_quantity_policy
    rows_before watch rows_after offer_ids σ stocks_before σ1 known1 stocks σ' :
  for_each rows_before [] (create_stocks_row offer_ids) σ
    = inr (stocks_before, σ1) →
  σ1 !! offer_ids = Some known1 →
  row_code watch ∈ known1 →
  create_stocks (rows_before ++ watch :: rows_after) offer_ids σ
    = inr (stocks, σ') →
  ∃ stock,
    stocks !! length stocks_before = Some (Stock.mk (row_code watch) stock)
    ∧ (py_str (row_quantity watch) = ">10" → stock = 100)
    ∧ (py_str (row_quantity watch) = "1" → stock = 0)
    ∧ (py_str (row_quantity watch) ≠ ">10" →
       py_str (row_quantity watch) ≠ "1" →
       py_int (row_quantity watch) = inr stock).
Proof.
  intros Hbefore Hσ1 Hin Hrun. unfold create_stocks in Hrun.
  apply bind_inv in Hrun as (matched & σ2 & Hrows & Hrun).
  rewrite for_each_app, (bind_inr _ _ _ _ _ Hbefore) in Hrows.
  simpl in Hrows. apply bind_inv in Hrows as (stocks1 & σ3 & Hrow & Hafter).
  destruct (create_stocks_row_match _ _ _ _ _ _ _ Hσ1 Hin Hrow)
    as (stock & known2 & -> & -> & _ & Hpolicy).
  destruct (create_stocks_rows_inv _ _ _ _ known2 _ _
              (lookup_insert_eq σ1 offer_ids known2) Hafter)
    as (later & known' & -> & _).
  unfold mbind, M_bind, list_items in Hrun. rewrite zero_out_loop in Hrun.
  injection Hrun as <- _.
  exists stock. split; [|exact Hpolicy].
  rewrite <- !app_assoc. by apply list_lookup_middle.
Qed.

Lemma create_stocks_quantity_policy_witness :
  ∃ stock,
    [Stock.mk "A" 7; Stock.mk "B" 0] !! length (@nil Stock.t)
      = Some (Stock.mk "A" stock)
    ∧ ("7" = ">10" → stock = 100)
    ∧ ("7" = "1" → stock = 0)
    ∧ ("7" ≠ ">10" → "7" ≠ "1" → py_int (PyStr "7") = inr stock).
Proof.
  apply (create_stocks_quantity_policy [] seven_row [] 1%positive
           (store_of ["A"; "B"]) [] (store_of ["A"; "B"]) ["A"; "B"]
           [Stock.mk "A" 7; Stock.mk "B" 0] (store_of ["B"])
           eq_refl eq_refl).
  - apply (bool_decide_unpack _). vm_compute. exact I.
  - vm_compute. reflexivity.
Defined.

(** C5. Zero-out policy.  A known offer id that is the code of no vendor row
    is in the result of [create_stocks] with stock 0, and with no other
    stock. *)
Theorem create_stocks_zero_out watch_remnants offer_ids σ known stocks σ' k :
  σ !! offer_ids = Some known →
  create_stocks watch_remnants offer_ids σ = inr (stocks, σ') →
  k ∈ known →
  Forall (λ watch, row_code watch ≠ k) watch_remnants →
  Stock.mk k 0 ∈ stocks
  ∧ (∀ record, record ∈ stocks →
       Stock.offer_id record = k → Stock.stock record = 0).
Proof.
  intros Hσ Hrun Hk Hnone.
  destruct (create_stocks_result _ _ _ _ _ _ Hσ Hrun)
    as (matched & known' & _ & -> & _ & _ & Hkeep & _ & Hfrom).
  split.
  - apply elem_of_app. right.
    apply (list_elem_of_fmap_2 (λ offer_id, Stock.mk offer_id 0)). by apply Hkeep.
  - intros record Hin Hid. apply elem_of_app in Hin as [Hin|Hin].
    + rewrite Forall_forall in Hfrom. rewrite Forall_forall in Hnone.
      destruct (Hfrom _ Hin) as (watch & Hwatch & Hcode).
      exfalso. apply (Hnone _ Hwatch). congruence.
    + apply list_elem_of_fmap in Hin as (k' & -> & _). done.
Qed.

Lemma create_stocks_zero_out_witness :
  let stocks := [Stock.mk "A" 100; Stock.mk "B" 0; Stock.mk "C" 0] in
  Stock.mk "C" 0 ∈ stocks
  ∧ (∀ record, record ∈ stocks →
       Stock.offer_id record = "C" → Stock.stock record = 0).
Proof.
  apply (create_stocks_zero_out scenario_rows 1%positive
           (store_of scenario_ids) scenario_ids _ (store_of ["C"]) "C").
  - reflexivity.
  - vm_compute. reflexivity.
  - apply (bool_decide_unpack _). vm_compute. exact I.
  - apply (bool_decide_unpack _). vm_compute. exact I.
Defined.

(** ** create_prices *)

Lemma create_prices_row_skip offer_ids prices watch σ known :
  σ !! offer_ids = Some known →
  row_code watch ∉ known →
  create_prices_row offer_ids prices watch σ = inr (prices, σ).
Proof.
  intros Hσ Hnot. unfold create_prices_row, mbind, M_bind, list_contains.
  rewrite (lookup_total_correct _ _ _ Hσ).
  by rewrite bool_decide_eq_false_2.
Qed.

Lemma create_prices_row_match offer_ids prices watch σ known :
  σ !! offer_ids = Some known →
  row_code watch ∈ known →
  create_prices_row offer_ids prices watch σ
  = match price_conversion (row_price watch) with
    | inl e => inl e
    | inr converted =>
        inr (prices ++ [Price.mk "UNKNOWN" "RUB" (row_code watch) "0" converted], σ)
    end.
Proof.
  intros Hσ Hin. unfold create_prices_row, mbind, M_bind, list_contains.
  rewrite (lookup_total_correct _ _ _ Hσ).
  rewrite bool_decide_eq_true_2 by done.
  by destruct (price_conversion (row_price watch)).
Qed.

(** The loop of [create_prices] leaves the store alone and appends one record
    for each row whose code is in the list, in feed order. *)
Lemma create_prices_rows_inv watch_remnants offer_ids σ known :
  σ !! offer_ids = Some known →
  ∀ prices prices' σ',
    for_each watch_remnants prices (create_prices_row offer_ids) σ
      = inr (prices', σ') →
    σ' = σ
    ∧ ∃ added,
        prices' = prices ++ added
        ∧ Forall2 price_record_of
            (filter (λ watch, row_code watch ∈ known) watch_remnants) added.
Proof.
  intros Hσ. induction watch_remnants as [|watch rows IH];
    intros prices prices' σ' Hrun; simpl in Hrun.
  - injection Hrun as <- <-. split; [done|]. exists [].
    by rewrite app_nil_r.
  - apply bind_inv in Hrun as (prices1 & σ1 & Hrow & Hrest).
    destruct (decide (row_code watch ∈ known)) as [Hin|Hnot].
    + rewrite (create_prices_row_match _ _ _ _ _ Hσ Hin) in Hrow.
      destruct (price_conversion (row_price watch)) as [e|converted] eqn:Hconv;
        [done|].
      injection Hrow as <- <-.
      destruct (IH _ _ _ Hrest) as (-> & added & -> & Hall).
      split; [done|]. eexists (_ :: added).
      rewrite <- app_assoc. split; [done|].
      rewrite filter_cons_True by done.
      apply Forall2_cons. split; [|done]. by repeat split.
    + rewrite (create_prices_row_skip _ _ _ _ _ Hσ Hnot) in Hrow.
      injection Hrow as <- <-.
      destruct (IH _ _ _ Hrest) as (-> & added & -> & Hall).
      split; [done|]. exists added. split; [done|].
      by rewrite filter_cons_False.
Qed.

(** [create_prices] returns when the price of every row in the list is a
    string. *)
Lemma create_prices_returns watch_remnants offer_ids σ known :
  σ !! offer_ids = Some known →
  Forall (λ watch, row_code watch ∈ known → ∃ s, row_price watch = PyStr s)
    watch_remnants →
  ∃ prices, create_prices watch_remnants offer_ids σ = inr (prices, σ).
Proof.
  intros Hσ Hall. unfold create_prices. generalize (@nil Price.t).
  induction Hall as [|watch rows Hstr Hall IH]; intros prices; simpl.
  - by eexists.
  - destruct (decide (row_code watch ∈ known)) as [Hin|Hnot].
    + destruct (Hstr Hin) as [s Hs].
      assert (∃ converted, price_conversion (row_price watch) = inr converted)
        as [converted Hconv].
      { rewrite Hs. unfold price_conversion.
        destruct s as [|c s]; simpl; [by eexists|].
        destruct (Ascii.eqb c "."); [by eexists|].
        destruct (str_split "." s); by eexists. }
      erewrite bind_inr;
        [|by rewrite (create_prices_row_match _ _ _ _ _ Hσ Hin), Hconv].
      apply IH.
    + erewrite bind_inr; [|by apply (create_prices_row_skip _ _ _ _ _ Hσ Hnot)].
      apply IH.
Qed.

(** C6. [create_prices] emits no record for an offer id outside the list, and
    exactly one record for each vendor row whose code is in the list, in feed
    order: rows that repeat a code each get a record of their own. *)
Theorem create_prices_one_record_per_row
    watch_remnants offer_ids σ known prices σ' :
  σ !! offer_ids = Some known →
  create_prices watch_remnants offer_ids σ = inr (prices, σ') →
  (∀ record, record ∈ prices → Price.offer_id record ∈ known)
  ∧ Forall2 price_record_of
      (filter (λ watch, row_code watch ∈ known) watch_remnants) prices
  ∧ Price.offer_id <$> prices
    = filter (λ code, code ∈ known) ((λ watch, row_code watch) <$> watch_remnants).
Proof.
  intros Hσ Hrun. unfold create_prices in Hrun.
  destruct (create_prices_rows_inv _ _ _ _ Hσ _ _ _ Hrun)
    as (_ & added & -> & Hall).
  simpl. clear Hrun.
  assert (Price.offer_id <$> added
          = (λ watch, row_code watch)
              <$> filter (λ watch, row_code watch ∈ known) watch_remnants)
    as Hids.
  { induction Hall as [|watch record rows records Hrec Hall IH]; [done|].
    rewrite !fmap_cons, IH. by destruct Hrec as (_ & -> & _). }
  split; [|split; [done|]].
  - intros record Hin.
    apply (list_elem_of_fmap_2 Price.offer_id) in Hin. rewrite Hids in Hin.
    apply list_elem_of_fmap in Hin as (watch & -> & Hin).
    by apply list_elem_of_filter in Hin as [? _].
  - rewrite Hids. clear. induction watch_remnants as [|watch rows IH]; [done|].
    rewrite fmap_cons.
    destruct (decide (row_code watch ∈ known)) as [Hin|Hnot].
    + rewrite !filter_cons_True by done. by rewrite fmap_cons, IH.
    + by rewrite !filter_cons_False.
Qed.

Lemma create_prices_one_record_per_row_witness :
  let prices := [Price.mk "UNKNOWN" "RUB" "A" "0" "120";
                 Price.mk "UNKNOWN" "RUB" "A" "0" "1300"] in
  (∀ record, record ∈ prices → Price.offer_id record ∈ ["A"; "B"])
  ∧ Forall2 price_record_of
      (filter (λ watch, row_code watch ∈ ["A"; "B"]) repeated_rows) prices
  ∧ Price.offer_id <$> prices
    = filter (λ code, code ∈ ["A"; "B"])
        ((λ watch, row_code watch) <$> repeated_rows).
Proof.
  apply (create_prices_one_record_per_row repeated_rows 1%positive
           (store_of ["A"; "B"]) ["A"; "B"] _ (store_of ["A"; "B"])).
  - reflexivity.
  - vm_compute. reflexivity.
Defined.

(** ** The offer-id list shared by the two builders *)

(** After [create_stocks] has returned on a duplicate-free list, the list
    object holds no code of the feed, and [create_prices] on the same object
    builds no record at all. *)
Lemma create_prices_after_create_stocks
    watch_remnants offer_ids σ known stocks σ' :
  σ !! offer_ids = Some known →
  NoDup known →
  create_stocks watch_remnants offer_ids σ = inr (stocks, σ') →
  create_prices watch_remnants offer_ids σ' = inr ([], σ').
Proof.
  intros Hσ Hnodup Hrun.
  destruct (create_stocks_result _ _ _ _ _ _ Hσ Hrun)
    as (matched & known' & _ & _ & -> & _ & _ & Hgone & _).
  specialize (Hgone Hnodup). clear Hrun.
  unfold create_prices. generalize (@nil Price.t).
  induction Hgone as [|watch rows Hnot Hgone IH]; intros prices; simpl; [done|].
  erewrite bind_inr; [apply IH|].
  apply (create_prices_row_skip _ _ _ _ known'); [|done].
  by rewrite lookup_insert_eq.
Qed.

Lemma lift_inv {A} (r : exn + A) σ x σ' :
  lift r σ = inr (x, σ') → r = inr x ∧ σ' = σ.
Proof. destruct r as [e|y]; simpl; [done|]. by intros [= -> ->]. Qed.

(** X13. A completed run of [main] on a duplicate-free catalog pushes stock
    batches only: the price records are built from the list object that
    [create_stocks] has emptied of every code of the feed. *)
Lemma main_pushes_no_price fetched_offer_ids watch_remnants requests :
  NoDup fetched_offer_ids →
  main fetched_offer_ids watch_remnants = inr requests →
  ∀ r, r ∈ requests → ∃ stocks, r = UpdateStocks stocks.
Proof.
  intros Hnodup Hmain. unfold main in Hmain.
  destruct (main_try fetched_offer_ids watch_remnants ∅)
    as [e|[requests' σ]] eqn:Hrun; [done|].
  injection Hmain as ->. unfold main_try in Hrun.
  apply bind_inv in Hrun as (offer_ids & σ0 & Hnew & Hrun).
  unfold new_list in Hnew. injection Hnew as <- <-.
  apply bind_inv in Hrun as (stocks & σ1 & Hstocks & Hrun).
  apply bind_inv in Hrun as (stock_batches & σ2 & Hdiv & Hrun).
  apply lift_inv in Hdiv as [_ ->].
  apply bind_inv in Hrun as (prices & σ3 & Hprices & Hrun).
  rewrite (create_prices_after_create_stocks _ _ _ _ _ _
             (lookup_insert_eq _ _ _) Hnodup Hstocks) in Hprices.
  injection Hprices as <- <-.
  apply bind_inv in Hrun as (price_batches & σ4 & Hdiv & Hrun).
  apply lift_inv in Hdiv as [Hdiv ->].
  injection Hdiv as <-. injection Hrun as <- _.
  intros r Hr. rewrite app_nil_r in Hr.
  apply list_elem_of_fmap in Hr as (batch & -> & _). by eexists.
Qed.

(** C1. [create_stocks] removes the matched ids from the list object it is
    given.  On the feed [seven_row] and the known ids ["A"], the list is empty
    afterwards, [create_prices] on it builds nothing although it builds one
    record from the original ids, and a run of [main] pushes the stock batch
    and no price batch. *)
Theorem create_stocks_mutates_offer_ids :
  create_stocks [seven_row] 1%positive (store_of ["A"])
    = inr ([Stock.mk "A" 7], store_of [])
  ∧ create_prices [seven_row] 1%positive (store_of [])
    = inr ([], store_of [])
  ∧ create_prices [seven_row] 1%positive (store_of ["A"])
    = inr ([Price.mk "UNKNOWN" "RUB" "A" "0" "120"], store_of ["A"])
  ∧ main ["A"] [seven_row] = inr [UpdateStocks [Stock.mk "A" 7]].
Proof. repeat split; vm_compute; reflexivity. Qed.

(** C9. The end-to-end scenario: each builder called with the known ids
    ["A"; "B"; "C"]. *)
Theorem scenario_end_to_end :
  create_stocks scenario_rows 1%positive (store_of scenario_ids)
    = inr ([Stock.mk "A" 100; Stock.mk "B" 0; Stock.mk "C" 0], store_of ["C"])
  ∧ create_prices scenario_rows 1%positive (store_of scenario_ids)
    = inr ([Price.mk "UNKNOWN" "RUB" "A" "0" "999";
            Price.mk "UNKNOWN" "RUB" "B" "0" "5000"], store_of scenario_ids).
Proof. split; vm_compute; reflexivity. Qed.

(** ** price_conversion *)

(** [is_digit] holds of the ten characters of the class [0-9]. *)
Lemma is_digit_spec (c : ascii) :
  is_digit c = true ↔ c ∈ chars "0123456789".
Proof.
  destruct c as [[] [] [] [] [] [] [] []];
    apply (bool_decide_unpack _); vm_compute; exact I.
Qed.

Lemma re_sub_non_digits_filter (s : string) :
  re_sub_non_digits s = digits_of s.
Proof.
  unfold digits_of. induction s as [|c s IH]; simpl; [done|].
  destruct (is_digit c); simpl; by rewrite IH.
Qed.

Lemma str_split_nonempty sep s : ∃ piece pieces, str_split sep s = piece :: pieces.
Proof.
  destruct s as [|c s]; simpl; [by eexists _, _|].
  destruct (Ascii.eqb c sep); [by eexists _, _|].
  destruct (str_split sep s); by eexists _, _.
Qed.

(** A text without the separator is the only piece. *)
Lemma str_split_none sep s : sep ∉ chars s → str_split sep s = [s].
Proof.
  induction s as [|c s IH]; simpl; intros Hnot; [done|].
  apply not_elem_of_cons in Hnot as [Hne Hnot].
  destruct (Ascii.eqb_spec c sep) as [->|_]; [done|].
  by rewrite IH.
Qed.

(** The first piece is the text before the first separator. *)
Lemma str_split_first sep before after :
  sep ∉ chars before →
  index0 (str_split sep (before +:+ String sep after)) = inr before.
Proof.
  induction before as [|c s IH]; simpl; intros Hnot.
  - by rewrite Ascii.eqb_refl.
  - apply not_elem_of_cons in Hnot as [Hne Hnot].
    destruct (Ascii.eqb_spec c sep) as [->|_]; [done|].
    specialize (IH Hnot).
    destruct (str_split_nonempty sep (s +:+ String sep after))
      as (piece & pieces & Hsplit).
    rewrite Hsplit in IH |- *. simpl in IH |- *. by simplify_eq.
Qed.

(** C7. [price_conversion] returns the decimal digits of the text before the
    first period, and of the whole text when it has no period; every other
    character is removed. *)
Theorem price_conversion_contract (integer_part rest : string) :
  "."%char ∉ chars integer_part →
  price_conversion (PyStr integer_part) = inr (digits_of integer_part)
  ∧ price_conversion (PyStr (integer_part +:+ "." +:+ rest))
    = inr (digits_of integer_part)
  ∧ price_conversion (PyStr "5'990.00") = inr "5990"
  ∧ price_conversion (PyStr "1,234.56") = inr "1234"
  ∧ price_conversion (PyStr "100") = inr "100".
Proof.
  intros Hnot. unfold price_conversion. repeat split.
  - rewrite str_split_none by done. simpl. by rewrite re_sub_non_digits_filter.
  - change ("." +:+ rest) with (String "." rest).
    rewrite str_split_first by done. by rewrite re_sub_non_digits_filter.
Qed.

Lemma price_conversion_contract_witness :
  price_conversion (PyStr "5'990") = inr (digits_of "5'990")
  ∧ price_conversion (PyStr ("5'990" +:+ "." +:+ "00")) = inr (digits_of "5'990")
  ∧ price_conversion (PyStr "5'990.00") = inr "5990"
  ∧ price_conversion (PyStr "1,234.56") = inr "1234"
  ∧ price_conversion (PyStr "100") = inr "100".
Proof.
  apply (price_conversion_contract "5'990" "00").
  apply (bool_decide_unpack _). vm_compute. exact I.
Defined.

(** ** divide *)

Section divide.
Context {A : Type}.
Implicit Types (lst : list A) (n : Z).

(** The number of batches for a positive batch size. *)
Lemma range_length_batches (len : nat) n :
  0 < n →
  let count := range_length 0 (Z.of_nat len) n in
  (len ≤ count * Z.to_nat n)%nat
  ∧ (len = 0%nat → count = 0%nat)
  ∧ (0 < len → 0 < count ∧ (count - 1) * Z.to_nat n < len)%nat.
Proof.
  intros Hn. unfold range_length.
  rewrite (proj2 (Z.ltb_lt 0 n)) by done.
  destruct (Z.ltb_spec 0 (Z.of_nat len)) as [Hlen|Hlen]; simpl.
  - pose proof (Z.div_mod (Z.of_nat len - 0 - 1) n ltac:(lia)) as Hdiv.
    pose proof (Z.mod_pos_bound (Z.of_nat len - 0 - 1) n Hn) as Hmod.
    assert (0 ≤ (Z.of_nat len - 0 - 1) / n) as Hq
      by (apply Z.div_pos; lia).
    set (q := (Z.of_nat len - 0 - 1) / n) in *.
    replace (Z.to_nat (q + 1)) with (S (Z.to_nat q)) by lia.
    assert (Z.of_nat (Z.to_nat q * Z.to_nat n) = n * q) as Hprod
      by (rewrite Nat2Z.inj_mul; lia).
    split; [|split].
    + simpl. lia.
    + lia.
    + intros _. split; [lia|].
      replace (S (Z.to_nat q) - 1)%nat with (Z.to_nat q) by lia. lia.
  - split; [lia|]. split; [done|lia].
Qed.

(** A slice inside the list is a [take] of a [drop]. *)
Lemma py_slice_batch lst (start size : nat) :
  (start ≤ length lst)%nat →
  py_slice lst (Z.of_nat start) (Z.of_nat start + Z.of_nat size)
  = take size (drop start lst).
Proof.
  intros Hstart. unfold py_slice, slice_bound.
  rewrite (proj2 (Z.ltb_ge _ 0)) by lia.
  rewrite (proj2 (Z.ltb_ge _ 0)) by lia.
  rewrite (Z.min_l (Z.of_nat start)) by lia. rewrite Nat2Z.id.
  destruct (decide (start + size ≤ length lst)%nat) as [Hin|Hout].
  - rewrite Z.min_l by lia. f_equal. lia.
  - rewrite Z.min_r by lia.
    rewrite !take_ge; [done| |]; rewrite length_drop; lia.
Qed.

(** For a positive size, the batches are the successive runs of [n]
    items. *)
Lemma divide_positive lst n :
  0 < n →
  divide lst n
  = inr ((λ k : nat, take (Z.to_nat n) (drop (k * Z.to_nat n) lst))
           <$> seq 0 (range_length 0 (Z.of_nat (length lst)) n)).
Proof.
  intros Hn. unfold divide, py_range.
  rewrite (proj2 (Z.eqb_neq n 0)) by lia. f_equal.
  rewrite <- list_fmap_compose. apply list_fmap_ext.
  intros i k Hk. apply lookup_seq in Hk as [-> Hk]. simpl.
  destruct (range_length_batches (length lst) n Hn) as (_ & _ & Hlast).
  assert (0 < length lst)%nat as Hpos.
  { destruct (length lst); [|lia].
    destruct (range_length_batches 0 n Hn) as (_ & Hnone & _).
    rewrite Hnone in Hk by done. lia. }
  destruct (Hlast Hpos) as [_ Hlt].
  assert (i * Z.to_nat n ≤ (range_length 0 (Z.of_nat (length lst)) n - 1)
                             * Z.to_nat n)%nat as Hle
    by (apply Nat.mul_le_mono_r; lia).
  replace (0 + Z.of_nat i * n) with (Z.of_nat (i * Z.to_nat n))
    by (rewrite Nat2Z.inj_mul; lia).
  replace (Z.of_nat (i * Z.to_nat n) + n)
    with (Z.of_nat (i * Z.to_nat n) + Z.of_nat (Z.to_nat n)) by lia.
  apply py_slice_batch. lia.
Qed.

Lemma concat_batches lst (size count : nat) :
  concat ((λ k : nat, take size (drop (k * size) lst)) <$> seq 0 count)
  = take (count * size) lst.
Proof.
  induction count as [|count IH]; [done|].
  rewrite seq_S, fmap_app, concat_app, IH. simpl.
  rewrite app_nil_r, take_take_drop. f_equal. lia.
Qed.
End divide.

(** C8. For a positive batch size [n], [divide] returns batches whose
    concatenation is the list; the batch number [i] is the run of the list
    that starts at item [i * n], it holds between one and [n] items, and
    every batch but the last holds [n]; the empty list gives no batch. *)
Theorem divide_partition {A} (lst : list A) (n : Z) :
  0 < n →
  ∃ batches,
    divide lst n = inr batches
    ∧ concat batches = lst
    ∧ (∀ (i : nat) batch, batches !! i = Some batch →
         batch = take (Z.to_nat n) (drop (i * Z.to_nat n) lst)
         ∧ (1 ≤ length batch ≤ Z.to_nat n)%nat
         ∧ (S i < length batches → length batch = Z.to_nat n)%nat)
    ∧ (lst = [] → batches = []).
Proof.
  intros Hn. eexists. split; [by apply divide_positive|].
  destruct (range_length_batches (length lst) n Hn) as (Hcover & Hnone & Hlast).
  set (count := range_length 0 (Z.of_nat (length lst)) n) in *.
  split; [|split].
  - rewrite concat_batches. by apply take_ge.
  - intros i batch Hi. rewrite list_lookup_fmap in Hi.
    destruct (seq 0 count !! i) as [k|] eqn:Hk; [|done].
    apply lookup_seq in Hk as [-> Hk]. simpl in Hi. injection Hi as <-.
    split; [done|].
    assert (0 < length lst)%nat as Hpos.
    { destruct (length lst); [|lia]. rewrite Hnone in Hk by done. lia. }
    destruct (Hlast Hpos) as [_ Hlt].
    assert (i * Z.to_nat n ≤ (count - 1) * Z.to_nat n)%nat as Hle
      by (apply Nat.mul_le_mono_r; lia).
    rewrite length_take, length_drop, length_fmap, length_seq.
    split; [lia|]. intros Hnext.
    assert (S i * Z.to_nat n ≤ (count - 1) * Z.to_nat n)%nat as Hle'
      by (apply Nat.mul_le_mono_r; lia).
    simpl in Hle'. lia.
  - intros ->. simpl in *. by rewrite Hnone.
Qed.

Lemma divide_partition_witness :
  ∃ batches,
    divide [1; 2; 3; 4; 5] 2 = inr batches
    ∧ concat batches = [1; 2; 3; 4; 5]
    ∧ (∀ (i : nat) batch, batches !! i = Some batch →
         batch = take (Z.to_nat 2) (drop (i * Z.to_nat 2) [1; 2; 3; 4; 5])
         ∧ (1 ≤ length batch ≤ Z.to_nat 2)%nat
         ∧ (S i < length batches → length batch = Z.to_nat 2)%nat)
    ∧ ([1; 2; 3; 4; 5] = [] → batches = []).
Proof. apply (divide_partition [1; 2; 3; 4; 5] 2). reflexivity. Defined.

(** The example of the specification. *)
Example divide_five_by_two : divide [1; 2; 3; 4; 5] 2 = inr [[1; 2]; [3; 4]; [5]].
Proof. reflexivity. Qed.

(** C3, as the code has it.  A batch size of zero is a [ValueError]; a
    negative batch size is no error: [divide] then yields no batch at all. *)
Theorem divide_non_positive {A} (lst : list A) (n : Z) :
  n ≤ 0 →
  divide lst n = if decide (n = 0) then inl ValueError else inr [].
Proof.
  intros Hn. case_decide as Hzero.
  - by subst n.
  - unfold divide, py_range, range_length.
    rewrite (proj2 (Z.eqb_neq n 0)) by done.
    rewrite (proj2 (Z.ltb_ge 0 n)) by lia.
    by rewrite (proj2 (Z.ltb_ge (Z.of_nat (length lst)) 0)) by lia.
Qed.

Lemma divide_non_positive_witness :
  divide [1; 2; 3] 0 = inl ValueError.
Proof. apply (divide_non_positive [1; 2; 3] 0). lia. Defined.

(** C3 as stated fails: the batch size [-1] raises nothing. *)
Lemma divide_negative_size_no_error :
  -1 ≤ 0
  ∧ divide [1; 2; 3] (-1) = inr []
  ∧ ¬ (∃ e, divide [1; 2; 3] (-1) = inl e).
Proof.
  split; [lia|]. split; [reflexivity|].
  intros [e He]. vm_compute in He. discriminate He.
Qed.

(** ** get_offer_ids *)

Section get_offer_ids_paging.
Variable get_product_list : nat → string → Page.t.

Lemma accumulated_S (k : nat) :
  accumulated get_product_list (S k)
  = accumulated get_product_list k
    ++ Page.items (response get_product_list k).
Proof.
  unfold accumulated. rewrite seq_S, fmap_app, concat_app. simpl.
  by rewrite app_nil_r.
Qed.

(** One iteration of the loop, from the state it has before request [k]. *)
Lemma loop_step (fuel k : nat) :
  loop_from get_product_list (S fuel) k
  = if Page.total (response get_product_list k)
         =? Z.of_nat (length (accumulated get_product_list (S k)))
    then Some (accumulated get_product_list (S k))
    else loop_from get_product_list fuel (S k).
Proof. unfold loop_from. simpl. by rewrite accumulated_S. Qed.

(** The loop is still running after [fuel] iterations exactly when none of
    their responses reached the total. *)
Lemma loop_None_iff (fuel k : nat) :
  loop_from get_product_list fuel k = None
  ↔ ∀ j, (k ≤ j < k + fuel)%nat → ¬ total_reached get_product_list j.
Proof.
  revert k. induction fuel as [|fuel IH]; intros k.
  - split; [intros _ j ?; lia|done].
  - rewrite loop_step.
    destruct (Z.eqb_spec (Page.total (response get_product_list k))
                (Z.of_nat (length (accumulated get_product_list (S k)))))
      as [Heq|Hne].
    + split; [done|]. intros Hnever. destruct (Hnever k); [lia|done].
    + rewrite IH. split; intros Hnever j Hj.
      * destruct (decide (j = k)) as [->|?]; [done|]. apply Hnever. lia.
      * apply Hnever. lia.
Qed.

(** The loop returns at the first response that reaches the total, with the
    products accumulated up to it. *)
Lemma loop_Some_iff (fuel k : nat) product_list :
  loop_from get_product_list fuel k = Some product_list
  ↔ ∃ n, (k ≤ n < k + fuel)%nat
         ∧ total_reached get_product_list n
         ∧ (∀ j, (k ≤ j < n)%nat → ¬ total_reached get_product_list j)
         ∧ product_list = accumulated get_product_list (S n).
Proof.
  revert k. induction fuel as [|fuel IH]; intros k.
  - split; [done|]. intros (n & ? & _). lia.
  - rewrite loop_step.
    destruct (Z.eqb_spec (Page.total (response get_product_list k))
                (Z.of_nat (length (accumulated get_product_list (S k)))))
      as [Heq|Hne].
    + split.
      * intros [= <-]. exists k.
        split; [lia|]. split; [done|]. split; [|done].
        intros j ?. lia.
      * intros (n & Hn & Hreached & Hfirst & ->).
        destruct (decide (n = k)) as [->|?]; [done|].
        destruct (Hfirst k); [lia|done].
    + rewrite IH. split.
      * intros (n & Hn & Hreached & Hfirst & ->).
        exists n. split; [lia|]. split; [done|]. split; [|done].
        intros j Hj. destruct (decide (j = k)) as [->|?]; [done|].
        apply Hfirst. lia.
      * intros (n & Hn & Hreached & Hfirst & ->).
        assert (n ≠ k) by (intros ->; done).
        exists n. split; [lia|]. split; [done|]. split; [|done].
        intros j Hj. apply Hfirst. lia.
Qed.
End get_offer_ids_paging.

(** C10. [get_offer_ids] returns exactly when some response reports a total
    equal to the number of products accumulated with it: it then returns the
    offer ids of the pages up to the first such response, in page order.  When
    no response ever does, the loop is still running after any number of
    iterations. *)
Theorem get_offer_ids_paging (get_product_list : nat → string → Page.t) :
  (∀ fuel ids,
     get_offer_ids get_product_list fuel = Some ids
     ↔ ∃ n, (n < fuel)%nat
            ∧ total_reached get_product_list n
            ∧ (∀ j, (j < n)%nat → ¬ total_reached get_product_list j)
            ∧ ids = Product.offer_id <$> accumulated get_product_list (S n))
  ∧ ((∃ fuel ids, get_offer_ids get_product_list fuel = Some ids)
     ↔ ∃ n, total_reached get_product_list n)
  ∧ ((∀ n, ¬ total_reached get_product_list n) →
     ∀ fuel, get_offer_ids get_product_list fuel = None).
Proof.
  assert (∀ fuel ids,
     get_offer_ids get_product_list fuel = Some ids
     ↔ ∃ n, (n < fuel)%nat
            ∧ total_reached get_product_list n
            ∧ (∀ j, (j < n)%nat → ¬ total_reached get_product_list j)
            ∧ ids = Product.offer_id <$> accumulated get_product_list (S n))
    as Hreturns.
  { intros fuel ids. unfold get_offer_ids.
    pose proof (loop_Some_iff get_product_list fuel 0) as Hloop.
    change (loop_from get_product_list fuel 0)
      with (get_offer_ids_loop get_product_list fuel 0 "" []) in Hloop.
    split.
    - destruct (get_offer_ids_loop get_product_list fuel 0 "" [])
        as [product_list|] eqn:Hrun; [|done].
      intros [= <-].
      destruct (proj1 (Hloop product_list) eq_refl)
        as (n & Hn & Hreached & Hfirst & ->).
      exists n. split; [lia|]. split; [done|]. split; [|done].
      intros j Hj. apply Hfirst. lia.
    - intros (n & Hn & Hreached & Hfirst & ->).
      rewrite (proj2 (Hloop (accumulated get_product_list (S n)))); [done|].
      exists n. split; [lia|]. split; [done|]. split; [|done].
      intros j Hj. apply Hfirst. lia. }
  split; [exact Hreturns|]. split; [split|].
  - intros (fuel & ids & Hrun).
    apply Hreturns in Hrun as (n & _ & Hreached & _). by exists n.
  - intros [n Hreached]. exists (S n). unfold get_offer_ids.
    destruct (get_offer_ids_loop get_product_list (S n) 0 "" [])
      as [product_list|] eqn:Hloop; [by eexists|].
    destruct (proj1 (loop_None_iff get_product_list (S n) 0) Hloop n);
      [lia|done].
  - intros Hnever fuel. unfold get_offer_ids.
    pose proof (proj2 (loop_None_iff get_product_list fuel 0)) as Hloop.
    change (loop_from get_product_list fuel 0)
      with (get_offer_ids_loop get_product_list fuel 0 "" []) in Hloop.
    rewrite Hloop; [done|]. intros j _. apply Hnever.
Qed.

Lemma get_offer_ids_paging_witness :
  get_offer_ids two_pages 5 = Some ["A"; "B"; "C"].
Proof.
  apply (proj1 (get_offer_ids_paging two_pages) 5%nat ["A"; "B"; "C"]).
  exists 1%nat. split; [lia|]. split; [reflexivity|]. split; [|reflexivity].
  intros j Hj. assert (j = 0%nat) as -> by lia.
  vm_compute. discriminate.
Defined.

Example get_offer_ids_short_listing fuel :
  get_offer_ids short_listing fuel = None.
Proof.
  unfold get_offer_ids.
  pose proof (proj2 (loop_None_iff short_listing fuel 0)) as Hloop.
  change (loop_from short_listing fuel 0)
    with (get_offer_ids_loop short_listing fuel 0 "" []) in Hloop.
  rewrite Hloop; [done|]. intros j _.
  unfold total_reached. simpl.
  assert (∀ n, accumulated short_listing n = []) as Hnil.
  { intros n. unfold accumulated. generalize 0%nat.
    induction n as [|n IH]; intros start; [done|]. simpl. apply IH. }
  rewrite Hnil. simpl. lia.
Qed.

(** * Further properties *)

(** ** price_conversion: shape of the result *)

Lemma re_sub_non_digits_chars (s : string) :
  Forall (λ c, is_digit c = true) (chars (re_sub_non_digits s)).
Proof.
  induction s as [|c s IH]; simpl; [constructor|].
  destruct (is_digit c) eqn:Hc; simpl; [by constructor|done].
Qed.

Lemma re_sub_non_digits_length (s : string) :
  (String.length (re_sub_non_digits s) ≤ String.length s)%nat.
Proof.
  induction s as [|c s IH]; simpl; [done|].
  destruct (is_digit c); simpl; lia.
Qed.

(** A text of digits is left as it is. *)
Lemma re_sub_non_digits_id (s : string) :
  Forall (λ c, is_digit c = true) (chars s) → re_sub_non_digits s = s.
Proof.
  induction s as [|c s IH]; simpl; [done|].
  intros [Hc Hs]%Forall_cons. by rewrite Hc, IH.
Qed.

Lemma str_split_first_length sep s piece pieces :
  str_split sep s = piece :: pieces →
  (String.length piece ≤ String.length s)%nat.
Proof.
  revert piece pieces. induction s as [|c s IH]; simpl; intros piece pieces.
  - by intros [= <- _].
  - destruct (Ascii.eqb c sep); [intros [= <- _]; simpl; lia|].
    destruct (str_split sep s) as [|piece' pieces'] eqn:Hsplit.
    + intros [= <- _]. simpl. lia.
    + intros [= <- _]. specialize (IH _ _ eq_refl). simpl in *. lia.
Qed.

(** X1. On every string [price_conversion] returns, and the result is made
    of digits only, is no longer than the input, and is a fixed point:
    converting a converted price changes nothing. *)
Theorem price_conversion_digits_only (s : string) :
  ∃ converted,
    price_conversion (PyStr s) = inr converted
    ∧ Forall (λ c, is_digit c = true) (chars converted)
    ∧ (String.length converted ≤ String.length s)%nat
    ∧ price_conversion (PyStr converted) = inr converted.
Proof.
  unfold price_conversion at 1.
  destruct (str_split_nonempty "." s) as (piece & pieces & Hsplit).
  rewrite Hsplit. simpl. eexists. split; [done|].
  pose proof (re_sub_non_digits_chars piece) as Hdigits.
  split; [done|]. split.
  - pose proof (re_sub_non_digits_length piece).
    pose proof (str_split_first_length _ _ _ _ Hsplit). lia.
  - unfold price_conversion. rewrite str_split_none.
    + simpl. by rewrite re_sub_non_digits_id.
    + intros Hdot. rewrite Forall_forall in Hdigits.
      by specialize (Hdigits _ Hdot).
Qed.

(** ** create_prices: errors and dependence on the list *)

Lemma price_conversion_error price e :
  price_conversion price = inl e →
  e = AttributeError ∧ ∀ s, price ≠ PyStr s.
Proof.
  destruct price as [|z|s|repr as_int]; simpl;
    try (intros [= <-]; by split).
  destruct (price_conversion_digits_only s) as (converted & Hs & _).
  simpl in Hs. by rewrite Hs.
Qed.

Lemma price_conversion_not_str price :
  (∀ s, price ≠ PyStr s) → price_conversion price = inl AttributeError.
Proof. destruct price as [|z|s|repr as_int]; simpl; try done. intros H. by destruct (H s). Qed.

(** X2. [create_prices] raises exactly when some row whose code is in the
    list has a price that is not a string (a missing [Цена] included), and
    the error is then [AttributeError]: no record is returned. *)
Theorem create_prices_raises_iff watch_remnants offer_ids σ known e :
  σ !! offer_ids = Some known →
  create_prices watch_remnants offer_ids σ = inl e
  ↔ e = AttributeError
    ∧ Exists (λ watch, row_code watch ∈ known ∧ ∀ s, row_price watch ≠ PyStr s)
        watch_remnants.
Proof.
  intros Hσ. unfold create_prices. generalize (@nil Price.t).
  induction watch_remnants as [|watch rows IH]; intros prices; simpl.
  - split; [done|]. intros [_ Hex]. by apply Exists_nil in Hex.
  - destruct (decide (row_code watch ∈ known)) as [Hin|Hnot].
    + unfold mbind, M_bind at 1.
      rewrite (create_prices_row_match _ _ _ _ _ Hσ Hin).
      destruct (price_conversion (row_price watch)) as [e'|converted] eqn:Hconv.
      * apply price_conversion_error in Hconv as [-> Hnot_str]. split.
        -- intros [= <-]. split; [done|]. by apply Exists_cons_hd.
        -- by intros [-> _].
      * rewrite IH. split; intros [-> Hex]; (split; [done|]).
        -- by apply Exists_cons_tl.
        -- apply Exists_cons in Hex as [[_ Hnot_str]|Hex]; [|done].
           rewrite price_conversion_not_str in Hconv by done. done.
    + unfold mbind, M_bind at 1.
      rewrite (create_prices_row_skip _ _ _ _ _ Hσ Hnot).
      rewrite IH. split; intros [-> Hex]; (split; [done|]).
      * by apply Exists_cons_tl.
      * apply Exists_cons in Hex as [[Hin _]|Hex]; done.
Qed.

Lemma create_prices_raises_iff_witness :
  create_prices [seven_row; broken_row] 1%positive (store_of ["A"; "B"])
    = inl AttributeError.
Proof.
  apply (proj2 (create_prices_raises_iff [seven_row; broken_row] 1%positive
                  (store_of ["A"; "B"]) ["A"; "B"] AttributeError eq_refl)).
  split; [reflexivity|]. apply Exists_cons_tl, Exists_cons_hd. split.
  - apply (bool_decide_unpack _). vm_compute. exact I.
  - intros s Hs. vm_compute in Hs. discriminate Hs.
Defined.

(** X3. [create_prices] never changes the store, and its outcome depends on
    the list only through membership: lists with the same items, in any
    order and with any repetitions, give the same records or the same
    error. *)
Theorem create_prices_membership_only
    watch_remnants offer_ids1 σ1 known1 offer_ids2 σ2 known2 :
  σ1 !! offer_ids1 = Some known1 →
  σ2 !! offer_ids2 = Some known2 →
  (∀ k, k ∈ known1 ↔ k ∈ known2) →
  outcome (create_prices watch_remnants offer_ids1 σ1)
    = outcome (create_prices watch_remnants offer_ids2 σ2)
  ∧ (∀ prices σ',
       create_prices watch_remnants offer_ids1 σ1 = inr (prices, σ') →
       σ' = σ1).
Proof.
  intros Hσ1 Hσ2 Hsame. split.
  - unfold create_prices. generalize (@nil Price.t).
    induction watch_remnants as [|watch rows IH]; intros prices; simpl; [done|].
    unfold mbind, M_bind.
    destruct (decide (row_code watch ∈ known1)) as [Hin|Hnot].
    + rewrite (create_prices_row_match _ _ _ _ _ Hσ1 Hin).
      rewrite (create_prices_row_match _ _ _ _ _ Hσ2 (proj1 (Hsame _) Hin)).
      destruct (price_conversion (row_price watch)); [done|]. apply IH.
    + rewrite (create_prices_row_skip _ _ _ _ _ Hσ1 Hnot).
      rewrite (create_prices_row_skip _ _ _ _ known2 Hσ2);
        [apply IH|]. intros Hin. by apply Hnot, Hsame.
  - intros prices σ' Hrun. unfold create_prices in Hrun.
    by destruct (create_prices_rows_inv _ _ _ _ Hσ1 _ _ _ Hrun) as [-> _].
Qed.

Lemma create_prices_membership_only_witness :
  outcome (create_prices repeated_rows 1%positive (store_of ["A"; "B"]))
    = outcome (create_prices repeated_rows 2%positive
                 {[ 2%positive := ["B"; "A"; "B"] ]})
  ∧ (∀ prices σ',
       create_prices repeated_rows 1%positive (store_of ["A"; "B"])
         = inr (prices, σ') →
       σ' = store_of ["A"; "B"]).
Proof.
  apply (create_prices_membership_only repeated_rows
           1%positive (store_of ["A"; "B"]) ["A"; "B"]
           2%positive {[ 2%positive := ["B"; "A"; "B"] ]} ["B"; "A"; "B"]).
  - reflexivity.
  - vm_compute. reflexivity.
  - intros k. rewrite !elem_of_cons, !elem_of_nil. tauto.
Defined.

(** ** create_stocks: what is left in the list, which rows count, errors *)








(** A row whose code is not in the list when the loop reaches it can be
    taken out of the feed. *)
Lemma create_stocks_drop_row rows_before watch rows_after offer_ids σ known :
  σ !! offer_ids = Some known →
  (∀ stocks known1,
     for_each rows_before [] (create_stocks_row offer_ids) σ
       = inr (stocks, <[offer_ids := known1]> σ) →
     row_code watch ∉ known1) →
  create_stocks (rows_before ++ watch :: rows_after) offer_ids σ
  = create_stocks (rows_before ++ rows_after) offer_ids σ.
Proof.
  intros Hσ Hskip. unfold create_stocks.
  assert (for_each (rows_before ++ watch :: rows_after) []
            (create_stocks_row offer_ids) σ
          = for_each (rows_before ++ rows_after) []
              (create_stocks_row offer_ids) σ) as Hrows.
  { rewrite !for_each_app. unfold mbind, M_bind.
    destruct (for_each rows_before [] (create_stocks_row offer_ids) σ)
      as [e|[stocks σ1]] eqn:Hbefore; [done|].
    destruct (create_stocks_rows_inv _ _ _ _ _ _ _ Hσ Hbefore)
      as (matched & known1 & _ & -> & _).
    simpl. unfold mbind, M_bind.
    by rewrite (create_stocks_row_skip _ _ _ _ known1
                  (lookup_insert_eq _ _ _) (Hskip _ _ eq_refl)). }
  unfold mbind, M_bind at 1 3. by rewrite Hrows.
Qed.

(** X5. A row whose code is not a known offer id has no effect on
    [create_stocks], whatever its quantity: taking it out of the feed changes
    neither the result, nor the error, nor the store. *)
Theorem create_stocks_ignores_unknown_code
    rows_before watch rows_after offer_ids σ known :
  σ !! offer_ids = Some known →
  row_code watch ∉ known →
  create_stocks (rows_before ++ watch :: rows_after) offer_ids σ
  = create_stocks (rows_before ++ rows_after) offer_ids σ.
Proof.
  intros Hσ Hnot. apply (create_stocks_drop_row _ _ _ _ _ known Hσ).
  intros stocks known1 Hbefore Hin. apply Hnot.
  destruct (create_stocks_rows_inv _ _ _ _ _ _ _ Hσ Hbefore)
    as (matched & known1' & _ & Heq & Hperm & _).
  apply (f_equal (λ σ, σ !! offer_ids)) in Heq.
  rewrite !lookup_insert_eq in Heq. injection Heq as <-.
  rewrite <- Hperm. apply elem_of_app. by right.
Qed.

Lemma create_stocks_ignores_unknown_code_witness :
  create_stocks ([seven_row] ++ broken_row :: []) 1%positive (store_of ["A"])
  = create_stocks ([seven_row] ++ []) 1%positive (store_of ["A"]).
Proof.
  apply (create_stocks_ignores_unknown_code [seven_row] broken_row []
           1%positive (store_of ["A"]) ["A"]).
  - reflexivity.
  - apply (bool_decide_unpack _). vm_compute. exact I.
Defined.

(** X6. First occurrence wins: on a duplicate-free list, a row that repeats
    the code of an earlier row has no effect on [create_stocks], whatever its
    quantity. *)
Theorem create_stocks_ignores_repeated_code
    rows_before watch rows_after offer_ids σ known :
  σ !! offer_ids = Some known →
  NoDup known →
  row_code watch ∈ row_codes rows_before →
  create_stocks (rows_before ++ watch :: rows_after) offer_ids σ
  = create_stocks (rows_before ++ rows_after) offer_ids σ.
Proof.
  intros Hσ Hnodup Hearlier. apply (create_stocks_drop_row _ _ _ _ _ known Hσ).
  intros stocks known1 Hbefore.
  destruct (create_stocks_rows_inv _ _ _ _ _ _ _ Hσ Hbefore)
    as (matched & known1' & _ & Heq & _ & _ & Hgone & _).
  apply (f_equal (λ σ, σ !! offer_ids)) in Heq.
  rewrite !lookup_insert_eq in Heq. injection Heq as <-.
  specialize (Hgone Hnodup). rewrite Forall_forall in Hgone.
  apply list_elem_of_fmap in Hearlier as (earlier & -> & Hin).
  by apply Hgone.
Qed.

Lemma create_stocks_ignores_repeated_code_witness :
  create_stocks (scenario_rows ++ broken_row :: []) 1%positive
    (store_of scenario_ids)
  = create_stocks (scenario_rows ++ []) 1%positive (store_of scenario_ids).
Proof.
  apply (create_stocks_ignores_repeated_code scenario_rows broken_row []
           1%positive (store_of scenario_ids) scenario_ids).
  - reflexivity.
  - apply (bool_decide_unpack _). vm_compute. exact I.
  - apply (bool_decide_unpack _). vm_compute. exact I.
Defined.

Lemma create_stocks_row_error offer_ids stocks watch σ known e :
  σ !! offer_ids = Some known →
  create_stocks_row offer_ids stocks watch σ = inl e →
  row_code watch ∈ known
  ∧ py_str (row_quantity watch) ≠ ">10"
  ∧ py_str (row_quantity watch) ≠ "1"
  ∧ py_int (row_quantity watch) = inl e.
Proof.
  intros Hσ. destruct (decide (row_code watch ∈ known)) as [Hin|Hnot].
  - destruct (remove_first_is_Some _ _ Hin) as [known' Hrem].
    unfold create_stocks_row, mbind, M_bind, list_contains, list_remove.
    rewrite (lookup_total_correct _ _ _ Hσ), bool_decide_eq_true_2 by done.
    destruct (String.eqb_spec (py_str (row_quantity watch)) ">10") as [Hgt|Hgt].
    { unfold mret, M_ret. by rewrite (lookup_total_correct _ _ _ Hσ), Hrem. }
    destruct (String.eqb_spec (py_str (row_quantity watch)) "1") as [Hone|Hone].
    { unfold mret, M_ret. by rewrite (lookup_total_correct _ _ _ Hσ), Hrem. }
    destruct (py_int (row_quantity watch)) as [e'|stock]; simpl.
    + unfold raise. by intros [= ->].
    + unfold mret, M_ret. by rewrite (lookup_total_correct _ _ _ Hσ), Hrem.
  - by rewrite (create_stocks_row_skip _ _ _ _ _ Hσ Hnot).
Qed.

(** X7. [create_stocks] raises only what [int()] raises on the quantity of a
    row whose code is a known offer id and whose quantity is no sentinel; in
    particular [offer_ids.remove] never raises. *)
Theorem create_stocks_error_origin watch_remnants offer_ids σ known e :
  σ !! offer_ids = Some known →
  create_stocks watch_remnants offer_ids σ = inl e →
  Exists (λ watch,
            row_code watch ∈ known
            ∧ py_str (row_quantity watch) ≠ ">10"
            ∧ py_str (row_quantity watch) ≠ "1"
            ∧ py_int (row_quantity watch) = inl e)
    watch_remnants.
Proof.
  intros Hσ Hrun.
  assert (∀ stocks σ1 known1,
            σ1 !! offer_ids = Some known1 →
            known1 ⊆ known →
            for_each watch_remnants stocks (create_stocks_row offer_ids) σ1
              = inl e →
            Exists (λ watch,
                      row_code watch ∈ known
                      ∧ py_str (row_quantity watch) ≠ ">10"
                      ∧ py_str (row_quantity watch) ≠ "1"
                      ∧ py_int (row_quantity watch) = inl e)
              watch_remnants) as Hrows.
  { clear. induction watch_remnants as [|watch rows IH];
      intros stocks σ1 known1 Hσ1 Hsub Hrun; simpl in Hrun; [done|].
    unfold mbind, M_bind in Hrun.
    destruct (create_stocks_row offer_ids stocks watch σ1)
      as [e'|[stocks1 σ2]] eqn:Hrow.
    - injection Hrun as ->.
      destruct (create_stocks_row_error _ _ _ _ _ _ Hσ1 Hrow) as (Hin & Hrest).
      apply Exists_cons_hd. split; [by apply Hsub|done].
    - apply Exists_cons_tl.
      destruct (create_stocks_rows_inv [watch] _ stocks _ _ stocks1 σ2 Hσ1)
        as (matched & known2 & _ & -> & Hperm & _).
      { simpl. unfold mbind, M_bind. by rewrite Hrow. }
      apply (IH stocks1 (<[offer_ids := known2]> σ1) known2
               (lookup_insert_eq σ1 offer_ids known2)); [|done].
      intros k Hk. apply Hsub. rewrite <- Hperm. apply elem_of_app. by right. }
  unfold create_stocks, mbind, M_bind in Hrun.
  destruct (for_each watch_remnants [] (create_stocks_row offer_ids) σ)
    as [e'|[stocks σ1]] eqn:Hloop.
  - injection Hrun as ->. by apply (Hrows [] σ known Hσ).
  - unfold list_items in Hrun. by rewrite zero_out_loop in Hrun.
Qed.

Lemma create_stocks_error_origin_witness :
  Exists (λ watch,
            row_code watch ∈ ["A"; "B"]
            ∧ py_str (row_quantity watch) ≠ ">10"
            ∧ py_str (row_quantity watch) ≠ "1"
            ∧ py_int (row_quantity watch) = inl ValueError)
    [seven_row; broken_row].
Proof.
  apply (create_stocks_error_origin [seven_row; broken_row] 1%positive
           (store_of ["A"; "B"]) ["A"; "B"] ValueError).
  - reflexivity.
  - vm_compute. reflexivity.
Defined.

(** X8. With an empty list of known offer ids both builders return no record
    for any feed, without reading a quantity or a price and without touching
    the store; with an empty feed [create_stocks] returns a zero record for
    every known id, in catalog order, and leaves the list as it is. *)
Theorem builders_on_empty_inputs watch_remnants offer_ids σ known :
  σ !! offer_ids = Some known →
  (known = [] →
   create_stocks watch_remnants offer_ids σ = inr ([], σ)
   ∧ create_prices watch_remnants offer_ids σ = inr ([], σ))
  ∧ (watch_remnants = [] →
     create_stocks watch_remnants offer_ids σ
       = inr ((λ k, Stock.mk k 0) <$> known, σ)
     ∧ create_prices watch_remnants offer_ids σ = inr ([], σ)).
Proof.
  intros Hσ. split.
  - intros ->.
    assert (∀ stocks, for_each watch_remnants stocks
              (create_stocks_row offer_ids) σ = inr (stocks, σ)) as Hstocks.
    { induction watch_remnants as [|watch rows IH]; intros stocks; [done|].
      simpl. unfold mbind, M_bind.
      rewrite (create_stocks_row_skip _ _ _ _ [] Hσ); [apply IH|].
      apply not_elem_of_nil. }
    assert (∀ prices, for_each watch_remnants prices
              (create_prices_row offer_ids) σ = inr (prices, σ)) as Hprices.
    { clear Hstocks.
      induction watch_remnants as [|watch rows IH]; intros prices; [done|].
      simpl. unfold mbind, M_bind.
      rewrite (create_prices_row_skip _ _ _ _ [] Hσ); [apply IH|].
      apply not_elem_of_nil. }
    split; [|apply Hprices].
    unfold create_stocks, mbind, M_bind, list_items. rewrite Hstocks.
    by rewrite (lookup_total_correct _ _ _ Hσ).
  - intros ->. split; [|done].
    unfold create_stocks, mbind, M_bind, list_items. simpl.
    by rewrite (lookup_total_correct _ _ _ Hσ), zero_out_loop.
Qed.

Lemma builders_on_empty_inputs_witness :
  create_stocks [broken_row] 1%positive (store_of []) = inr ([], store_of [])
  ∧ create_prices [broken_row] 1%positive (store_of [])
    = inr ([], store_of []).
Proof.
  apply (proj1 (builders_on_empty_inputs [broken_row] 1%positive
                  (store_of []) [] eq_refl) eq_refl).
Defined.

(** ** create_stocks: numeric cells *)

Lemma pretty_N_go_not_gt (x : N) (s s' : string) :
  s ≠ String ">" s' → pretty_N_go x s ≠ String ">" s'.
Proof.
  revert s. induction (N.lt_wf_0 x) as [x _ IH]; intros s Hs.
  destruct (decide (x = 0)%N) as [->|Hx]; [by rewrite pretty_N_go_0|].
  rewrite pretty_N_go_step by lia.
  apply IH; [apply N.div_lt; lia|].
  unfold pretty_N_char. by repeat case_match.
Qed.

(** [str] of an integer is never the sentinel [">10"], and is ["1"] only for
    the integer 1. *)
Lemma py_str_int_sentinels (z : Z) :
  py_str (PyInt z) ≠ ">10" ∧ (py_str (PyInt z) = "1" ↔ z = 1).
Proof.
  split.
  - simpl. destruct z as [|p|p]; [done| |done].
    unfold pretty, pretty_Z, pretty, pretty_positive, pretty, pretty_N.
    case_decide; [done|]. by apply pretty_N_go_not_gt.
  - split; [|by intros ->].
    intros Hone. by apply (inj (pretty : Z → string)).
Qed.

(** The record of the first row that carries a known code. *)
Lemma create_stocks_first_occurrence
    rows_before watch rows_after offer_ids σ known stocks σ' :
  σ !! offer_ids = Some known →
  row_code watch ∈ known →
  row_code watch ∉ row_codes rows_before →
  create_stocks (rows_before ++ watch :: rows_after) offer_ids σ
    = inr (stocks, σ') →
  ∃ stock,
    Stock.mk (row_code watch) stock ∈ stocks
    ∧ (py_str (row_quantity watch) = ">10" → stock = 100)
    ∧ (py_str (row_quantity watch) = "1" → stock = 0)
    ∧ (py_str (row_quantity watch) ≠ ">10" →
       py_str (row_quantity watch) ≠ "1" →
       py_int (row_quantity watch) = inr stock).
Proof.
  intros Hσ Hin Hfirst Hrun.
  destruct (create_stocks_result _ _ _ _ _ _ Hσ Hrun)
    as (matched & known' & Hrows & -> & _).
  rewrite for_each_app in Hrows.
  apply bind_inv in Hrows as (stocks1 & σ1 & Hbefore & Hrows).
  destruct (create_stocks_rows_inv _ _ _ _ _ _ _ Hσ Hbefore)
    as (matched1 & known1 & _ & -> & _ & Hkeep & _).
  assert (row_code watch ∈ known1) as Hin1.
  { apply Hkeep; [done|]. apply Forall_forall. intros earlier Hearlier Heq.
    apply Hfirst. rewrite <- Heq. unfold row_codes.
    by apply (list_elem_of_fmap_2 (λ watch, row_code watch)). }
  simpl in Hrows. apply bind_inv in Hrows as (stocks2 & σ2 & Hrow & Hafter).
  destruct (create_stocks_row_match _ _ _ _ _ _ _
              (lookup_insert_eq σ offer_ids known1) Hin1 Hrow)
    as (stock & known2 & -> & -> & _ & Hpolicy).
  destruct (create_stocks_rows_inv _ _ _ _ known2 _ _
              (lookup_insert_eq _ offer_ids known2) Hafter)
    as (later & known3 & -> & _).
  exists stock. split; [|exact Hpolicy].
  rewrite !elem_of_app, elem_of_cons. tauto.
Qed.

(** X9. A quantity cell that holds an integer: the first row with a known
    code gets the stock 0 when the integer is 1, and the integer itself
    otherwise (a negative one included). *)
Theorem create_stocks_integer_quantity
    rows_before watch rows_after offer_ids σ known stocks σ' (z : Z) :
  σ !! offer_ids = Some known →
  row_code watch ∈ known →
  row_code watch ∉ row_codes rows_before →
  row_quantity watch = PyInt z →
  create_stocks (rows_before ++ watch :: rows_after) offer_ids σ
    = inr (stocks, σ') →
  Stock.mk (row_code watch) (if decide (z = 1) then 0 else z) ∈ stocks.
Proof.
  intros Hσ Hin Hfirst Hz Hrun.
  destruct (create_stocks_first_occurrence _ _ _ _ _ _ _ _ Hσ Hin Hfirst Hrun)
    as (stock & Hrecord & _ & Hone & Hother).
  rewrite Hz in Hone, Hother.
  destruct (py_str_int_sentinels z) as [Hgt Hone_iff].
  case_decide as Hcase.
  - by rewrite <- (Hone (proj2 Hone_iff Hcase)).
  - assert (py_str (PyInt z) ≠ "1") as Hne by (intros ?%Hone_iff; done).
    specialize (Hother Hgt Hne). simpl in Hother. by injection Hother as <-.
Qed.

Lemma create_stocks_integer_quantity_witness :
  Stock.mk "70415" (if decide (4 = 1) then 0 else 4)
    ∈ [Stock.mk "A" 7; Stock.mk "70415" 4].
Proof.
  apply (create_stocks_integer_quantity [seven_row] numeric_row [] 1%positive
           (store_of ["70415"; "A"]) ["70415"; "A"] _ (store_of []) 4).
  - reflexivity.
  - apply (bool_decide_unpack _). vm_compute. exact I.
  - apply (bool_decide_unpack _). vm_compute. exact I.
  - reflexivity.
  - vm_compute. reflexivity.
Defined.

(** ** divide: number and size of the batches *)

Lemma range_length_count (len : nat) (n : Z) :
  0 < n →
  Z.of_nat (range_length 0 (Z.of_nat len) n) = (Z.of_nat len + n - 1) / n.
Proof.
  intros Hn. unfold range_length. rewrite (proj2 (Z.ltb_lt 0 n)) by done.
  destruct (Z.ltb_spec 0 (Z.of_nat len)) as [Hlen|Hlen].
  - replace (Z.of_nat len + n - 1) with (Z.of_nat len - 0 - 1 + 1 * n) by lia.
    rewrite Z.div_add by lia.
    assert (0 ≤ (Z.of_nat len - 0 - 1) / n) by (apply Z.div_pos; lia). lia.
  - by rewrite Z.div_small by lia.
Qed.

Lemma divide_batches {A} (lst : list A) (n : Z) :
  0 < n →
  ∃ batches,
    divide lst n = inr batches
    ∧ concat batches = lst
    ∧ Forall (λ batch, (length batch ≤ Z.to_nat n)%nat) batches.
Proof.
  intros Hn. eexists. split; [by apply divide_positive|].
  destruct (range_length_batches (length lst) n Hn) as (Hcover & _).
  split.
  - rewrite concat_batches. by apply take_ge.
  - apply Forall_fmap, Forall_forall. intros k _. simpl.
    rewrite length_take. lia.
Qed.

(** X10. For a positive batch size [n], [divide] makes [ceil(len(lst) / n)]
    batches; a non-empty list of at most [n] items is the only batch. *)
Theorem divide_batch_count {A} (lst : list A) (n : Z) :
  0 < n →
  ∃ batches,
    divide lst n = inr batches
    ∧ Z.of_nat (length batches) = (Z.of_nat (length lst) + n - 1) / n
    ∧ ((0 < length lst)%nat → Z.of_nat (length lst) ≤ n → batches = [lst]).
Proof.
  intros Hn. eexists. split; [by apply divide_positive|]. split.
  - rewrite length_fmap, length_seq. by apply range_length_count.
  - intros Hpos Hle.
    assert (range_length 0 (Z.of_nat (length lst)) n = 1%nat) as ->.
    { apply Nat2Z.inj. rewrite range_length_count by done.
      replace (Z.of_nat (length lst) + n - 1)
        with (Z.of_nat (length lst) - 1 + 1 * n) by lia.
      rewrite Z.div_add, Z.div_small by lia. done. }
    simpl. f_equal. apply take_ge. lia.
Qed.

Lemma divide_batch_count_witness :
  ∃ batches,
    divide [1; 2; 3; 4; 5] 2 = inr batches
    ∧ Z.of_nat (length batches) = (Z.of_nat (length [1; 2; 3; 4; 5]) + 2 - 1) / 2
    ∧ ((0 < length [1; 2; 3; 4; 5])%nat →
       Z.of_nat (length [1; 2; 3; 4; 5]) ≤ 2 → batches = [[1; 2; 3; 4; 5]]).
Proof. apply (divide_batch_count [1; 2; 3; 4; 5] 2). reflexivity. Defined.

(** ** get_offer_ids: what is returned, and a growing catalog *)

Lemma accumulated_length_mono get_product_list (j k : nat) :
  (j ≤ k)%nat →
  (length (accumulated get_product_list j)
   ≤ length (accumulated get_product_list k))%nat.
Proof.
  induction 1 as [|k Hle IH]; [done|].
  rewrite accumulated_S, length_app. lia.
Qed.

(** X11. The list that [get_offer_ids] returns has as many ids as the last
    response reported in [total], and it holds the ids of every page
    requested, in page order. *)
Theorem get_offer_ids_length get_product_list fuel ids :
  get_offer_ids get_product_list fuel = Some ids →
  ∃ n, (n < fuel)%nat
       ∧ ids = Product.offer_id <$> accumulated get_product_list (S n)
       ∧ Z.of_nat (length ids) = Page.total (response get_product_list n).
Proof.
  unfold get_offer_ids.
  destruct (get_offer_ids_loop get_product_list fuel 0 "" [])
    as [product_list|] eqn:Hloop; [|done].
  intros [= <-].
  destruct (proj1 (loop_Some_iff get_product_list fuel 0 product_list) Hloop)
    as (n & Hn & Hreached & _ & ->).
  exists n. split; [lia|]. split; [done|].
  by rewrite length_fmap.
Qed.

Lemma get_offer_ids_length_witness :
  ∃ n, (n < 5)%nat
       ∧ ["A"; "B"; "C"] = Product.offer_id <$> accumulated two_pages (S n)
       ∧ Z.of_nat (length ["A"; "B"; "C"]) = Page.total (response two_pages n).
Proof. apply (get_offer_ids_length two_pages 5). reflexivity. Defined.

(** X12. A catalog that grows while it is paged: when, without having met
    the reported total, the accumulated count is above the total of every
    later response, [get_offer_ids] never returns. *)
Theorem get_offer_ids_overshoot get_product_list (k : nat) :
  (∀ j, (j < k)%nat → ¬ total_reached get_product_list j) →
  (∀ j, (k ≤ j)%nat →
     Page.total (response get_product_list j)
     < Z.of_nat (length (accumulated get_product_list (S k)))) →
  ∀ fuel, get_offer_ids get_product_list fuel = None.
Proof.
  intros Hbefore Hover fuel. unfold get_offer_ids.
  change (get_offer_ids_loop get_product_list fuel 0 "" [])
    with (loop_from get_product_list fuel 0).
  rewrite (proj2 (loop_None_iff get_product_list fuel 0)); [done|].
  intros j _. destruct (decide (j < k)%nat) as [Hlt|Hge]; [by apply Hbefore|].
  unfold total_reached. specialize (Hover j ltac:(lia)).
  pose proof (accumulated_length_mono get_product_list (S k) (S j) ltac:(lia)).
  lia.
Qed.

Lemma get_offer_ids_overshoot_witness :
  get_offer_ids growing_listing 1000 = None.
Proof.
  refine (get_offer_ids_overshoot growing_listing 1 _ _ 1000%nat).
  - intros j Hj. assert (j = 0%nat) as -> by lia. vm_compute. discriminate.
  - intros j Hj. destruct j as [|j]; [lia|].
    change (accumulated growing_listing 2) with
      [Product.mk 11 "A"; Product.mk 12 "B"; Product.mk 13 "C"].
    assert (cursor growing_listing (S j) = "next") as Hcursor.
    { clear Hj. induction j as [|j IH]; [reflexivity|].
      simpl in *. rewrite IH. reflexivity. }
    unfold response. rewrite Hcursor. simpl. lia.
Defined.

(** ** main, upload_stocks and upload_prices: what is pushed *)

Lemma main_pushes_no_price_witness :
  ∃ stocks, UpdateStocks [Stock.mk "A" 7] = UpdateStocks stocks.
Proof.
  apply (main_pushes_no_price ["A"] [seven_row]
           [UpdateStocks [Stock.mk "A" 7]]).
  - apply (bool_decide_unpack _). vm_compute. exact I.
  - vm_compute. reflexivity.
  - apply list_elem_of_here.
Defined.

Lemma lift_divide_inv {A} (lst : list A) (n : Z) σ batches σ' :
  0 < n →
  lift (divide lst n) σ = inr (batches, σ') →
  σ' = σ
  ∧ concat batches = lst
  ∧ Forall (λ batch, (length batch ≤ Z.to_nat n)%nat) batches.
Proof.
  intros Hn Hlift. apply lift_inv in Hlift as [Hdiv ->].
  destruct (divide_batches lst n Hn) as (batches' & Hdiv' & Hconcat & Hsize).
  rewrite Hdiv' in Hdiv. by injection Hdiv as <-.
Qed.

(** X14. A completed run of [main] first pushes the stock records, at most
    100 to a request, and they carry each fetched offer id exactly as often
    as the catalog does; the price requests follow, at most 900 records
    each. *)
Theorem main_stock_batches fetched_offer_ids watch_remnants requests :
  main fetched_offer_ids watch_remnants = inr requests →
  ∃ stock_batches price_batches,
    requests = (UpdateStocks <$> stock_batches)
               ++ (UpdatePrice <$> price_batches)
    ∧ Stock.offer_id <$> concat stock_batches ≡ₚ fetched_offer_ids
    ∧ Forall (λ batch, (length batch ≤ 100)%nat) stock_batches
    ∧ Forall (λ batch, (length batch ≤ 900)%nat) price_batches.
Proof.
  intros Hmain. unfold main in Hmain.
  destruct (main_try fetched_offer_ids watch_remnants ∅)
    as [e|[requests' σ]] eqn:Hrun; [done|].
  injection Hmain as ->. unfold main_try in Hrun.
  apply bind_inv in Hrun as (offer_ids & σ0 & Hnew & Hrun).
  unfold new_list in Hnew. injection Hnew as <- <-.
  apply bind_inv in Hrun as (stocks & σ1 & Hstocks & Hrun).
  apply bind_inv in Hrun as (stock_batches & σ2 & Hdiv & Hrun).
  apply lift_divide_inv in Hdiv as (-> & Hconcat & Hsize); [|done].
  apply bind_inv in Hrun as (prices & σ3 & Hprices & Hrun).
  apply bind_inv in Hrun as (price_batches & σ4 & Hdiv & Hrun).
  apply lift_divide_inv in Hdiv as (-> & _ & Hsize'); [|done].
  injection Hrun as <- _.
  exists stock_batches, price_batches. split; [done|]. split; [|done].
  rewrite Hconcat.
  by apply (create_stocks_offer_ids_perm _ _ _ _ _ _
              (lookup_insert_eq _ _ _) Hstocks).
Qed.

Lemma main_stock_batches_witness :
  ∃ stock_batches price_batches,
    [UpdateStocks [Stock.mk "A" 100; Stock.mk "B" 0; Stock.mk "C" 0]]
    = (UpdateStocks <$> stock_batches) ++ (UpdatePrice <$> price_batches)
    ∧ Stock.offer_id <$> concat stock_batches ≡ₚ scenario_ids
    ∧ Forall (λ batch, (length batch ≤ 100)%nat) stock_batches
    ∧ Forall (λ batch, (length batch ≤ 900)%nat) price_batches.
Proof.
  apply (main_stock_batches scenario_ids scenario_rows).
  vm_compute. reflexivity.
Defined.

(** X15. [upload_stocks] pushes every stock record it returns exactly once,
    in order, at most 100 to a request, and the records carry each fetched
    offer id exactly as often as the catalog does. *)
Theorem upload_stocks_pushes_all
    fetched_offer_ids watch_remnants σ requests not_empty stocks σ' :
  upload_stocks fetched_offer_ids watch_remnants σ
    = inr ((requests, (not_empty, stocks)), σ') →
  ∃ batches,
    requests = UpdateStocks <$> batches
    ∧ concat batches = stocks
    ∧ Forall (λ batch, (length batch ≤ 100)%nat) batches
    ∧ Stock.offer_id <$> stocks ≡ₚ fetched_offer_ids.
Proof.
  intros Hrun. unfold upload_stocks in Hrun.
  apply bind_inv in Hrun as (offer_ids & σ0 & Hnew & Hrun).
  unfold new_list in Hnew. injection Hnew as <- <-.
  apply bind_inv in Hrun as (stocks' & σ1 & Hstocks & Hrun).
  apply bind_inv in Hrun as (batches & σ2 & Hdiv & Hrun).
  apply lift_divide_inv in Hdiv as (-> & Hconcat & Hsize); [|done].
  injection Hrun as <- <- <- <-.
  exists batches. split; [done|]. split; [done|]. split; [done|].
  by apply (create_stocks_offer_ids_perm _ _ _ _ _ _
              (lookup_insert_eq _ _ _) Hstocks).
Qed.

Lemma upload_stocks_pushes_all_witness :
  ∃ batches,
    [UpdateStocks [Stock.mk "A" 100; Stock.mk "B" 0; Stock.mk "C" 0]]
    = UpdateStocks <$> batches
    ∧ concat batches = [Stock.mk "A" 100; Stock.mk "B" 0; Stock.mk "C" 0]
    ∧ Forall (λ batch, (length batch ≤ 100)%nat) batches
    ∧ Stock.offer_id <$> [Stock.mk "A" 100; Stock.mk "B" 0; Stock.mk "C" 0]
      ≡ₚ scenario_ids.
Proof.
  apply (upload_stocks_pushes_all scenario_ids scenario_rows ∅ _
           [Stock.mk "A" 100] _ (store_of ["C"])).
  vm_compute. reflexivity.
Defined.



(** X17. [upload_prices] builds the prices from the list it has just
    fetched: it returns one record for each vendor row whose code is a
    fetched offer id, in feed order, and pushes exactly these records, in
    order, at most 1000 to a request. *)
Theorem upload_prices_pushes_all
    fetched_offer_ids watch_remnants σ requests prices σ' :
  upload_prices fetched_offer_ids watch_remnants σ
    = inr ((requests, prices), σ') →
  Forall2 price_record_of
    (filter (λ watch, row_code watch ∈ fetched_offer_ids) watch_remnants)
    prices
  ∧ ∃ batches,
      requests = UpdatePrice <$> batches
      ∧ concat batches = prices
      ∧ Forall (λ batch, (length batch ≤ 1000)%nat) batches.
Proof.
  intros Hrun. unfold upload_prices in Hrun.
  apply bind_inv in Hrun as (offer_ids & σ0 & Hnew & Hrun).
  unfold new_list in Hnew. injection Hnew as <- <-.
  apply bind_inv in Hrun as (prices' & σ1 & Hprices & Hrun).
  apply bind_inv in Hrun as (batches & σ2 & Hdiv & Hrun).
  apply lift_divide_inv in Hdiv as (-> & Hconcat & Hsize); [|done].
  injection Hrun as <- <- <-.
  unfold create_prices in Hprices.
  destruct (create_prices_rows_inv _ _ _ _ (lookup_insert_eq _ _ _) _ _ _
              Hprices) as (_ & added & -> & Hall).
  split; [done|]. by exists batches.
Qed.

Lemma upload_prices_pushes_all_witness :
  let prices := [Price.mk "UNKNOWN" "RUB" "A" "0" "999";
                 Price.mk "UNKNOWN" "RUB" "B" "0" "5000"] in
  Forall2 price_record_of
    (filter (λ watch, row_code watch ∈ scenario_ids) scenario_rows) prices
  ∧ ∃ batches,
      [UpdatePrice prices] = UpdatePrice <$> batches
      ∧ concat batches = prices
      ∧ Forall (λ batch, (length batch ≤ 1000)%nat) batches.
Proof.
  apply (upload_prices_pushes_all scenario_ids scenario_rows ∅ _ _
           (store_of scenario_ids)).
  vm_compute. reflexivity.
Defined.

(** ** create_stocks: every record, and when it returns *)

Lemma create_stocks_rows_policy watch_remnants offer_ids :
  ∀ stocks σ known stocks' σ',
    σ !! offer_ids = Some known →
    for_each watch_remnants stocks (create_stocks_row offer_ids) σ
      = inr (stocks', σ') →
    ∃ matched,
      stocks' = stocks ++ matched
      ∧ Forall (λ record, ∃ watch,
                  watch ∈ watch_remnants
                  ∧ Stock.offer_id record = row_code watch
                  ∧ stock_policy watch (Stock.stock record))
          matched.
Proof.
  induction watch_remnants as [|watch rows IH];
    intros stocks σ known stocks' σ' Hσ Hrun; simpl in Hrun.
  - injection Hrun as <- <-. exists []. by rewrite app_nil_r.
  - apply bind_inv in Hrun as (stocks1 & σ1 & Hrow & Hrest).
    assert (∃ matched,
              stocks' = stocks1 ++ matched
              ∧ Forall (λ record, ∃ watch',
                          watch' ∈ watch :: rows
                          ∧ Stock.offer_id record = row_code watch'
                          ∧ stock_policy watch' (Stock.stock record))
                  matched) as Htail.
    { assert (∃ known1, σ1 !! offer_ids = Some known1) as [known1 Hσ1].
      { destruct (decide (row_code watch ∈ known)) as [Hin|Hnot].
        - destruct (create_stocks_row_match _ _ _ _ _ _ _ Hσ Hin Hrow)
            as (stock & known1 & _ & -> & _).
          exists known1. apply lookup_insert_eq.
        - rewrite (create_stocks_row_skip _ _ _ _ _ Hσ Hnot) in Hrow.
          injection Hrow as <- <-. by exists known. }
      destruct (IH _ _ _ _ _ Hσ1 Hrest) as (matched & -> & Hall).
      exists matched. split; [done|].
      eapply Forall_impl; [exact Hall|].
      intros record (w & Hw & Hrec). exists w.
      split; [by apply list_elem_of_further|done]. }
    destruct Htail as (matched & -> & Hall).
    destruct (decide (row_code watch ∈ known)) as [Hin|Hnot].
    + destruct (create_stocks_row_match _ _ _ _ _ _ _ Hσ Hin Hrow)
        as (stock & known1 & -> & _ & _ & Hpolicy).
      exists (Stock.mk (row_code watch) stock :: matched).
      rewrite <- app_assoc. split; [done|].
      apply Forall_cons. split; [|done].
      exists watch. split; [apply list_elem_of_here|]. by split.
    + rewrite (create_stocks_row_skip _ _ _ _ _ Hσ Hnot) in Hrow.
      injection Hrow as <- _. by exists matched.
Qed.

(** X18. Every record that [create_stocks] returns carries a known offer id,
    and its stock is either 0 or the stock that the quantity policy gives to
    a vendor row with that code: no stock comes from anywhere else. *)
Theorem create_stocks_every_record
    watch_remnants offer_ids σ known stocks σ' record :
  σ !! offer_ids = Some known →
  create_stocks watch_remnants offer_ids σ = inr (stocks, σ') →
  record ∈ stocks →
  Stock.offer_id record ∈ known
  ∧ (Stock.stock record = 0
     ∨ ∃ watch,
         watch ∈ watch_remnants
         ∧ Stock.offer_id record = row_code watch
         ∧ stock_policy watch (Stock.stock record)).
Proof.
  intros Hσ Hrun Hin. split.
  - rewrite <- (create_stocks_offer_ids_perm _ _ _ _ _ _ Hσ Hrun).
    by apply list_elem_of_fmap_2.
  - destruct (create_stocks_result _ _ _ _ _ _ Hσ Hrun)
      as (matched & known' & Hrows & -> & _).
    destruct (create_stocks_rows_policy _ _ _ _ _ _ _ Hσ Hrows)
      as (matched' & Hm & Hall).
    simpl in Hm. subst matched'.
    apply elem_of_app in Hin as [Hin|Hin].
    + right. rewrite Forall_forall in Hall. by apply Hall.
    + left. by apply list_elem_of_fmap in Hin as (k & -> & _).
Qed.

Lemma create_stocks_every_record_witness :
  Stock.offer_id (Stock.mk "A" 100) ∈ scenario_ids
  ∧ (Stock.stock (Stock.mk "A" 100) = 0
     ∨ ∃ watch,
         watch ∈ scenario_rows
         ∧ Stock.offer_id (Stock.mk "A" 100) = row_code watch
         ∧ stock_policy watch (Stock.stock (Stock.mk "A" 100))).
Proof.
  apply (create_stocks_every_record scenario_rows 1%positive
           (store_of scenario_ids) scenario_ids
           [Stock.mk "A" 100; Stock.mk "B" 0; Stock.mk "C" 0]
           (store_of ["C"])).
  - reflexivity.
  - vm_compute. reflexivity.
  - apply list_elem_of_here.
Defined.

(** X19. [create_stocks] returns on every feed in which each quantity is a
    sentinel or a value that [int()] accepts, whatever the known ids are. *)
Theorem create_stocks_returns_on_readable watch_remnants offer_ids σ known :
  σ !! offer_ids = Some known →
  Forall quantity_readable watch_remnants →
  ∃ stocks σ', create_stocks watch_remnants offer_ids σ = inr (stocks, σ').
Proof. apply create_stocks_returns. Qed.

Lemma create_stocks_returns_on_readable_witness :
  ∃ stocks σ',
    create_stocks scenario_rows 1%positive (store_of scenario_ids)
      = inr (stocks, σ').
Proof.
  apply (create_stocks_returns_on_readable scenario_rows 1%positive
           (store_of scenario_ids) scenario_ids eq_refl).
  apply Forall_cons. split; [left; reflexivity|].
  apply Forall_cons. split; [right; left; reflexivity|]. constructor.
Defined.

(** X20. The two builders on one list object: after [create_stocks] has
    returned on a duplicate-free list, [create_prices] on the same object
    returns no record at all, whatever the feed. *)
Theorem create_prices_sees_emptied_list
    watch_remnants offer_ids σ known stocks σ' :
  σ !! offer_ids = Some known →
  NoDup known →
  create_stocks watch_remnants offer_ids σ = inr (stocks, σ') →
  create_prices watch_remnants offer_ids σ' = inr ([], σ').
Proof. apply create_prices_after_create_stocks. Qed.

Lemma create_prices_sees_emptied_list_witness :
  create_prices scenario_rows 1%positive (store_of ["C"])
    = inr ([], store_of ["C"]).
Proof.
  apply (create_prices_sees_emptied_list scenario_rows 1%positive
           (store_of scenario_ids) scenario_ids
           [Stock.mk "A" 100; Stock.mk "B" 0; Stock.mk "C" 0]).
  - reflexivity.
  - apply (bool_decide_unpack _). vm_compute. exact I.
  - vm_compute. reflexivity.
Defined.
